(** * Relation resolution of the typegoose reference query service

    A shallow embedding of
    [packages/query-typegoose/src/services/reference-query.service.ts]:
    the abstract class [ReferenceQueryService] with its four read
    operations (findRelation, queryRelations, aggregateRelations,
    countRelations) and its four mutations (addRelations, setRelation,
    removeRelation, removeRelations).

    Asynchronous code is embedded in a state-and-exception monad over a
    world made of the document store and the trace of the requests sent
    to it; [await] is sequencing, [throw] is the error result. *)

From stdpp Require Import base gmap strings pretty list fin_maps sorting.

Open Scope string_scope.
Open Scope list_scope.

(** ** Documents *)

(** A field value: missing/undefined, one scalar (an id or a string), or
    an array of scalars. Ids are strings. *)
Inductive Value :=
| VUndefined
| VScalar (s : string)
| VArray (l : list string).

#[global] Instance Value_eq_dec : EqDecision Value.
Proof. solve_decision. Defined.

(** A document as the service sees it: its [_id] and its other fields. *)
Record Doc := mkDoc { _id : string; fields : gmap string Value }.

#[global] Instance Doc_eq_dec : EqDecision Doc.
Proof. solve_decision. Defined.

(** JS property read [doc[name]]. *)
Definition get (d : Doc) (name : string) : Value :=
  if decide (name = "_id") then VScalar (_id d)
  else default VUndefined (fields d !! name).

Definition isArray (v : Value) : bool :=
  match v with VArray _ => true | _ => false end.

(** A collection maps the unique [_id] to the fields of its document; the
    store maps a model name to its collection (no entry: empty). *)
Abbreviation Collection := (gmap string (gmap string Value)).
Abbreviation Store := (gmap string (gmap string (gmap string Value))).

Definition collection (s : Store) (model : string) : Collection :=
  default ∅ (s !! model).

Definition docs (c : Collection) : list Doc :=
  (fun p => mkDoc p.1 p.2) <$> map_to_list c.

Definition lookupDoc (c : Collection) (id : string) : option Doc :=
  mkDoc id <$> c !! id.

(** ** Filters of [@nestjs-query/core] *)

Inductive Comparison :=
| CmpEq (v : Value)
| CmpIn (l : list string).

Inductive Filter :=
| FEmpty
| FCmp (field : string) (c : Comparison)
| FAnd (a b : Filter)
| FOr (a b : Filter).

#[global] Instance Comparison_eq_dec : EqDecision Comparison.
Proof. solve_decision. Defined.

#[global] Instance Filter_eq_dec : EqDecision Filter.
Proof. solve_decision. Defined.

(** Modelled from the spec: [mergeFilter], imported from the core
    package. Merging is and-combination; an empty side is dropped. *)
Definition mergeFilter (base source : Filter) : Filter :=
  match base, source with
  | FEmpty, _ => source
  | _, FEmpty => base
  | _, _ => FAnd source base
  end.

Record SortField := mkSort { sortField : string; ascending : bool }.
Record Paging := mkPaging { limit : option nat; offset : option nat }.
Record Query := mkQuery
  { qFilter : option Filter; qPaging : option Paging; qSorting : list SortField }.

(** The five lists of field names of an [AggregateQuery]. *)
Record AggregateQuery := mkAgg
  { aggCount : list string; aggSum : list string; aggAvg : list string;
    aggMin : list string; aggMax : list string }.

#[global] Instance SortField_eq_dec : EqDecision SortField.
Proof. solve_decision. Defined.
#[global] Instance Paging_eq_dec : EqDecision Paging.
Proof. solve_decision. Defined.
#[global] Instance AggregateQuery_eq_dec : EqDecision AggregateQuery.
Proof. solve_decision. Defined.

(** ** The native queries of the store *)

(** A native query: an optional constraint on [_id] and the conditions of
    a filter. *)

Record FilterQuery := mkFQ { idMatch : option Value; conditions : Filter }.

Record QueryOptions := mkOpts
  { optLimit : option nat; optSkip : option nat; optSort : list SortField }.

#[global] Instance FilterQuery_eq_dec : EqDecision FilterQuery.
Proof. solve_decision. Defined.
#[global] Instance QueryOptions_eq_dec : EqDecision QueryOptions.
Proof. solve_decision. Defined.

(** Modelled from the spec: [FilterQueryBuilder.buildFilterQuery],
    imported from ../query. The native query selects the documents the
    filter selects; no filter selects all. *)
Definition buildFilterQuery (f : option Filter) : FilterQuery :=
  mkFQ None (default FEmpty f).

(** Modelled from the spec: [FilterQueryBuilder.buildIdFilterQuery] adds
    the constraint on [_id] to the query of the filter: membership for an
    array of ids, equality for one id. *)
Definition buildIdFilterQuery (id : Value) (f : option Filter) : FilterQuery :=
  mkFQ (Some id) (default FEmpty f).

(** Modelled from the spec: [FilterQueryBuilder.buildQuery] gives the
    query of the filter and carries paging and sorting over as the
    options [limit], [skip] and [sort]. *)
Definition buildQuery (q : Query) : FilterQuery * QueryOptions :=
  (buildFilterQuery (qFilter q),
   mkOpts (p ← qPaging q; limit p) (p ← qPaging q; offset p) (qSorting q)).

(** Modelled from the spec: [FilterQueryBuilder.buildAggregateQuery] gives
    the query of the filter and the aggregation to run on what it
    selects. *)
Definition buildAggregateQuery (agg : AggregateQuery) (f : Filter)
  : FilterQuery * AggregateQuery :=
  (buildFilterQuery (Some f), agg).

(** Evaluation of a comparison on a field value, as the store does it:
    equality with a scalar also holds for an array that contains it, and
    [$in] holds when the value, or one element of an array value, is in
    the list. *)
Definition cmpHolds (c : Comparison) (v : Value) : bool :=
  match c with
  | CmpEq a =>
      match a, v with
      | VUndefined, VUndefined => true
      | VScalar s, VScalar s' => bool_decide (s = s')
      | VScalar s, VArray l => bool_decide (s ∈ l)
      | VArray l, VArray l' => bool_decide (l = l')
      | _, _ => false
      end
  | CmpIn l =>
      match v with
      | VUndefined => false
      | VScalar s => bool_decide (s ∈ l)
      | VArray l' => existsb (fun s => bool_decide (s ∈ l)) l'
      end
  end.

Fixpoint filterHolds (f : Filter) (d : Doc) : bool :=
  match f with
  | FEmpty => true
  | FCmp name c => cmpHolds c (get d name)
  | FAnd a b => filterHolds a d && filterHolds b d
  | FOr a b => filterHolds a d || filterHolds b d
  end.

Definition idHolds (id : Value) (d : Doc) : bool :=
  match id with
  | VUndefined => false
  | VScalar s => bool_decide (_id d = s)
  | VArray l => bool_decide (_id d ∈ l)
  end.

Definition matches (q : FilterQuery) (d : Doc) : bool :=
  match idMatch q with
  | Some id => idHolds id d && filterHolds (conditions q) d
  | None => filterHolds (conditions q) d
  end.

(** ** Updates *)

Inductive UpdateQuery :=
| UPush (field : string) (each : list string)   (* { $push: { f: { $each } } } *)
| USet (field : string) (v : Value)             (* { f: v } *)
| UUnset (field : string) (v : string)          (* { $unset: { f: v } } *)
| UPullAll (field : string) (vals : list string). (* { $pullAll: { f: vals } } *)

#[global] Instance UpdateQuery_eq_dec : EqDecision UpdateQuery.
Proof. solve_decision. Defined.

Definition updatedField (u : UpdateQuery) : string :=
  match u with
  | UPush f _ | USet f _ | UUnset f _ | UPullAll f _ => f
  end.

(** The store's update operators on the fields of one document; [None]
    when the store rejects the update ([_id] is immutable, [$push] and
    [$pullAll] need an array or a missing field). *)
Definition applyUpdate (u : UpdateQuery) (fs : gmap string Value)
  : option (gmap string Value) :=
  if decide (updatedField u = "_id") then None else
  match u with
  | UPush f each =>
      match default VUndefined (fs !! f) with
      | VUndefined => Some (<[f := VArray each]> fs)
      | VArray l => Some (<[f := VArray (l ++ each)]> fs)
      | VScalar _ => None
      end
  | USet f v => Some (<[f := v]> fs)
  | UUnset f _ => Some (delete f fs)
  | UPullAll f vals =>
      match default VUndefined (fs !! f) with
      | VUndefined => Some fs
      | VArray l =>
          Some (<[f := VArray (filter (fun x => x ∉ vals) l)]> fs)
      | VScalar _ => None
      end
  end.

(** ** The world: store and trace of requests *)

Inductive Event :=
| EvFindById (model : string) (id : string)
| EvFind (model : string) (q : FilterQuery) (o : QueryOptions)
| EvCount (model : string) (q : FilterQuery)
| EvAggregate (model : string) (q : FilterQuery) (agg : AggregateQuery)
| EvFindOneAndUpdate (model : string) (q : FilterQuery) (u : UpdateQuery).

#[global] Instance Event_eq_dec : EqDecision Event.
Proof. solve_decision. Defined.

(** The model a request is sent to. *)
Definition eventModel (e : Event) : string :=
  match e with
  | EvFindById m _ | EvFind m _ _ | EvCount m _ | EvAggregate m _ _
  | EvFindOneAndUpdate m _ _ => m
  end.

Definition isWrite (e : Event) : bool :=
  match e with EvFindOneAndUpdate _ _ _ => true | _ => false end.

Record World := mkWorld { store : Store; trace : list Event }.

Inductive Exn :=
| Error (msg : string)
| NotFoundException (msg : string)
| TypeError (msg : string)
| RangeError (msg : string)
| CastError (msg : string)
| MongoError (msg : string).

Inductive Result (A : Type) :=
| Ok (a : A)
| Throw (e : Exn).
Arguments Ok {A} a.
Arguments Throw {A} e.

Definition M (A : Type) : Type := World -> Result A * World.

#[global] Instance M_ret : MRet M := fun A a w => (Ok a, w).
#[global] Instance M_bind : MBind M := fun A B f m w =>
  match m w with
  | (Ok a, w') => f a w'
  | (Throw e, w') => (Throw e, w')
  end.

#[global] Instance M_fmap : FMap M := fun A B f m => a ← m; mret (f a).

Definition throw {A} (e : Exn) : M A := fun w => (Throw e, w).

(** A pure step that may throw. *)
Definition ofResult {A} (r : Result A) : M A :=
  match r with
  | Ok a => mret a
  | Throw e => throw e
  end.
Definition emit (e : Event) : M unit :=
  fun w => (Ok tt, mkWorld (store w) (trace w ++ [e])).
Definition getStore : M Store := fun w => (Ok (store w), w).
Definition putStore (s : Store) : M unit :=
  fun w => (Ok tt, mkWorld s (trace w)).

(** ** The schema of the entity *)

(** What the guards of [typegoose-types.helper] look at in a schema type:
    the reference of the embedded schema type (an array of references),
    and the reference in the options (a single reference). *)
Record SchemaType := mkSchemaType
  { embeddedRef : option string; optionsRef : option string }.

Record VirtualOptions := mkVirtualOptions
  { vRef : string; localField : string; foreignField : string; justOne : bool }.

Record VirtualType := mkVirtual { vOptions : option VirtualOptions }.

Record Schema := mkSchema
  { paths : gmap string SchemaType; virtuals : gmap string VirtualType }.

Definition path (s : Schema) (name : string) : option SchemaType := paths s !! name.
Definition virtualpath (s : Schema) (name : string) : option VirtualType :=
  virtuals s !! name.

(** Modelled from the spec: the type guards imported from
    [typegoose-types.helper]. Each one holds when the schema type carries
    that reference metadata, and is given here by the metadata it finds. *)
Definition isEmbeddedSchemaTypeOptions (t : option SchemaType) : option string :=
  t ≫= embeddedRef.
Definition isSchemaTypeWithReferenceOptions (t : option SchemaType) : option string :=
  t ≫= optionsRef.
Definition isVirtualTypeWithReferenceOptions (t : option VirtualType)
  : option VirtualOptions :=
  t ≫= vOptions.

(** ** Results *)

Abbreviation Row := (gmap string Value).
Abbreviation AggregateResponse := (gmap string (gmap string Value)).

(** What [populated.get(path)] holds after a populate. *)
Inductive Populated :=
| PopNull
| PopDoc (d : Doc)
| PopDocs (l : list Doc)
| PopRaw (v : Value).

Definition truthy (p : Populated) : bool :=
  match p with
  | PopNull | PopRaw VUndefined | PopRaw (VScalar "") => false
  | _ => true
  end.

(** The assembler the factory returns for a relation class: a black box
    that converts queries and documents. *)
Record Assembler := mkAssembler
  { convertQuery : Query -> Query;
    convertAggregateQuery : AggregateQuery -> AggregateQuery;
    convertToDTO : Populated -> Result Populated }.

(** A relation class, through the two assemblers the service asks the
    [AssemblerFactory] for: towards the reference entity, and towards
    [Document]. *)
Record Class := mkClass
  { entityAssembler : Assembler; documentAssembler : Assembler }.

(** The default assembler: queries are left as they are; a document is
    converted to itself, [null] and [undefined] make the conversion throw,
    and so does an array of documents. *)
Definition defaultAssembler : Assembler :=
  mkAssembler (fun q => q) (fun a => a)
    (fun p =>
       match p with
       | PopNull | PopRaw VUndefined =>
           Throw (TypeError "Cannot convert undefined or null to object")
       | PopDocs _ => Throw (RangeError "Maximum call stack size exceeded")
       | PopDoc _ | PopRaw _ => Ok p
       end).

(** An entity object handed to a batched operation: [addr] is the
    identity of the object (keys of a JS [Map] are compared by it). *)
Record Entity := mkEntity { addr : nat; doc : Doc }.

(** [Map.set]: an existing key keeps its place and gets the new value, a
    new key goes last. *)
Fixpoint mapSet {V} (k : Entity) (v : V) (m : list (Entity * V))
  : list (Entity * V) :=
  match m with
  | [] => [(k, v)]
  | (k', v') :: r =>
      if decide (addr k' = addr k) then (k', v) :: r
      else (k', v') :: mapSet k v r
  end.

(** ** Sorting and paging of a result *)

Definition valueCompare (a b : Value) : comparison :=
  match a, b with
  | VUndefined, VUndefined => Eq
  | VUndefined, _ => Lt
  | _, VUndefined => Gt
  | VScalar x, VScalar y => String.compare x y
  | VScalar _, VArray _ => Lt
  | VArray _, VScalar _ => Gt
  | VArray x, VArray y => String.compare (String.concat "," x) (String.concat "," y)
  end.

Fixpoint docCompare (by_ : list SortField) (a b : Doc) : comparison :=
  match by_ with
  | [] => Eq
  | f :: r =>
      match valueCompare (get a (sortField f)) (get b (sortField f)) with
      | Eq => docCompare r a b
      | c => if ascending f then c else CompOpp c
      end
  end.

Definition sortDocs (by_ : list SortField) (l : list Doc) : list Doc :=
  match by_ with
  | [] => l
  | _ => merge_sort (fun a b => docCompare by_ a b ≠ Gt) l
  end.

Definition applyOptions (o : QueryOptions) (l : list Doc) : list Doc :=
  let sorted := sortDocs (optSort o) l in
  let skipped := drop (default 0 (optSkip o)) sorted in
  match optLimit o with
  | Some (S n) => take (S n) skipped
  | Some 0 | None => skipped
  end.

(** ** The requests to the store

    The methods of a mongoose model the service calls. Each one records
    its request in the trace. *)

Definition matching (q : FilterQuery) (c : Collection) : list Doc :=
  filter (fun d => matches q d = true) (docs c).

Definition findById (model id : string) : M (option Doc) :=
  _ ← emit (EvFindById model id);
  s ← getStore;
  mret (lookupDoc (collection s model) id).

Definition count (model : string) (q : FilterQuery) : M nat :=
  _ ← emit (EvCount model q);
  s ← getStore;
  mret (length (matching q (collection s model))).

(** [aggregate([{ $match }, { $group: { _id: null, ... } }])]: no row when
    nothing matches, one row otherwise. *)
Definition aggregate (accumulate : AggregateQuery -> list Doc -> Row)
    (model : string) (q : FilterQuery) (agg : AggregateQuery) : M (list Row) :=
  _ ← emit (EvAggregate model q agg);
  s ← getStore;
  mret (match matching q (collection s model) with
        | [] => []
        | ds => [accumulate agg ds]
        end).

Record ModelT := mkModel { modelName : string; schema : Schema }.

(** A path with an embedded schema type is an array path. *)
Definition isArrayPath (st : SchemaType) : bool :=
  match embeddedRef st with Some _ => true | None => false end.

(** The cast of an update against the schema, done before anything is
    sent: [$push] on a path that is not an array is a cast error, and a
    scalar set on an array path becomes the array of that one value. *)
Definition castUpdate (s : Schema) (u : UpdateQuery) : Result UpdateQuery :=
  match u with
  | UPush f each =>
      match path s f with
      | Some st =>
          if isArrayPath st then Ok u
          else Throw (CastError ("Cast failed for value at path " +:+ f))
      | None => Ok u
      end
  | USet f (VScalar v) =>
      match path s f with
      | Some st => if isArrayPath st then Ok (USet f (VArray [v])) else Ok u
      | None => Ok u
      end
  | _ => Ok u
  end.

(** [findOneAndUpdate(q, u, { new: true })]: the update is cast; then the
    request is sent, the first matching document is updated in place and
    returned as updated; [None] is [null]. *)
Definition findOneAndUpdate (m : ModelT) (q : FilterQuery) (u : UpdateQuery)
  : M (option Doc) :=
  u ← ofResult (castUpdate (schema m) u);
  _ ← emit (EvFindOneAndUpdate (modelName m) q u);
  s ← getStore;
  match head (matching q (collection s (modelName m))) with
  | None => mret None
  | Some d =>
      match applyUpdate u (fields d) with
      | None => throw (MongoError ("Cannot apply update to " +:+ updatedField u))
      | Some fs =>
          _ ← putStore (<[modelName m := <[_id d := fs]> (collection s (modelName m))]> s);
          mret (Some (mkDoc (_id d) fs))
      end
  end.

(** ** The service *)

(** The service and what it runs against: its [Model], the names
    typegoose's [getModelWithString] knows, the store's evaluation of a
    [$group] stage on the matched documents, and the conversion of the
    [AggregateBuilder]. *)
Record Service := mkService
  { Model : ModelT;
    models : gset string;
    accumulate : AggregateQuery -> list Doc -> Row;
    convertToAggregateResponse : Row -> AggregateResponse }.

(** The optional arguments of the operations. *)
Record FindRelationOptions := mkFindOpts { findFilter : option Filter }.
Record ModifyRelationOptions := mkModifyOpts
  { modFilter : option Filter; relationFilter : option Filter }.

Section ReferenceQueryService.

Variable this : Service.

Definition isReferencePath (refName : string) : bool :=
  bool_decide (is_Some (path (schema (Model this)) refName)).

Definition isVirtualPath (refName : string) : bool :=
  bool_decide (is_Some (virtualpath (schema (Model this)) refName)).

Definition checkForReference (operation refName : string) (allowVirtual : bool)
  : M unit :=
  if isReferencePath refName then mret tt
  else if isVirtualPath refName then
    if allowVirtual then mret tt
    else throw (Error (operation +:+ " not supported for virtual relation " +:+ refName))
  else throw (Error ("Unable to find reference " +:+ refName +:+ " on "
                       +:+ modelName (Model this))).

(** [getModelWithString]: [None] is [undefined], for a name that has no
    registered model. *)
Definition getModelWithString (key : string) : option string :=
  if decide (key ∈ models this) then Some key else None.

(** Calling a method on a model that is [undefined]. *)
Definition useModel (m : option string) : M string :=
  match m with
  | Some name => mret name
  | None => throw (TypeError "Cannot read property of undefined")
  end.

Definition getReferenceModel (refName : string) : M (option string) :=
  let lookupError :=
    Error ("Unable to lookup reference type for " +:+ refName) in
  if isReferencePath refName then
    let schemaType := path (schema (Model this)) refName in
    match isEmbeddedSchemaTypeOptions schemaType with
    | Some ref => mret (getModelWithString ref)
    | None =>
        match isSchemaTypeWithReferenceOptions schemaType with
        | Some ref => mret (getModelWithString ref)
        | None => throw lookupError
        end
    end
  else if isVirtualPath refName then
    let schemaType := virtualpath (schema (Model this)) refName in
    match isVirtualTypeWithReferenceOptions schemaType with
    | Some o => mret (getModelWithString (vRef o))
    | None => throw lookupError
    end
  else throw lookupError.

Definition getObjectIdReferenceFilter (refName : string) (entity : Doc)
    (f : option Filter) : Filter :=
  let referenceIds := get entity refName in
  let refFilter :=
    FCmp "_id" (match referenceIds with
                | VArray l => CmpIn l
                | v => CmpEq v
                end) in
  mergeFilter (default FEmpty f) refFilter.

Definition getVirtualReferenceFilter (virtualType : VirtualOptions)
    (entity : Doc) (f : option Filter) : Filter :=
  let refVal := get entity (localField virtualType) in
  let lookupFilter :=
    FCmp (foreignField virtualType)
         (match refVal with
          | VArray l => CmpIn l
          | v => CmpEq v
          end) in
  mergeFilter (default FEmpty f) lookupFilter.

Definition getReferenceFilter (refName : string) (entity : Doc)
    (f : option Filter) : M (option Filter) :=
  if isReferencePath refName then
    mret (Some (getObjectIdReferenceFilter refName entity f))
  else if isVirtualPath refName then
    let virtualType := virtualpath (schema (Model this)) refName in
    match isVirtualTypeWithReferenceOptions virtualType with
    | Some o => mret (Some (getVirtualReferenceFilter o entity f))
    | None => throw (Error ("Unable to lookup reference type for " +:+ refName))
    end
  else mret None.

Definition getRefCount (relationName : string) (relationIds : list string)
    (f : option Filter) : M nat :=
  referenceModel ← getReferenceModel relationName;
  model ← useModel referenceModel;
  count model (buildIdFilterQuery (VArray relationIds) f).

Definition findAndUpdate (id : string) (f : option Filter) (query : UpdateQuery)
  : M Doc :=
  entity ← findOneAndUpdate (Model this)
             (buildIdFilterQuery (VScalar id) f) query;
  match entity with
  | None =>
      throw (NotFoundException ("Unable to find " +:+ modelName (Model this)
                                  +:+ " with id: " +:+ id))
  | Some e => mret e
  end.

(** Modelled from the spec: [getById] is abstract in this class. It
    fetches the entity by id from the primary collection and fails with
    "not found" when there is none. *)
Definition getById (id : string) : M Doc :=
  found ← findById (modelName (Model this)) id;
  match found with
  | None =>
      throw (NotFoundException ("Unable to find " +:+ modelName (Model this)
                                  +:+ " with id: " +:+ id))
  | Some e => mret e
  end.

(** [entity.populate({ path, match, options }).execPopulate()] followed
    by [populated.get(path)], as mongoose does it: an array of ids is
    replaced by the documents found for them, in the order of the ids;
    one id by its document or [null]; a virtual by the documents whose
    foreign field holds the local value. A path without a reference is
    left as it is. *)
Definition populate (entity : Doc) (name : string) (q : FilterQuery)
    (o : QueryOptions) : M Populated :=
  let registered (ref : string) : M string :=
    match getModelWithString ref with
    | None => throw (MongoError ("Schema hasn't been registered for model " +:+ ref))
    | Some model => mret model
    end in
  match path (schema (Model this)) name with
  | Some st =>
      match from_option Some (optionsRef st) (embeddedRef st) with
      | None => mret (PopRaw (get entity name))
      | Some ref =>
          match get entity name with
          | VArray ids =>
              model ← registered ref;
              _ ← emit (EvFind model (mkFQ (Some (VArray ids)) (conditions q)) o);
              s ← getStore;
              mret (PopDocs (applyOptions o
                      (filter (fun d => matches q d = true)
                         (omap (lookupDoc (collection s model)) ids))))
          | VScalar id =>
              model ← registered ref;
              _ ← emit (EvFind model (mkFQ (Some (VScalar id)) (conditions q)) o);
              s ← getStore;
              mret (match lookupDoc (collection s model) id with
                    | Some d => if matches q d then PopDoc d else PopNull
                    | None => PopNull
                    end)
          | VUndefined =>
              mret (match embeddedRef st with
                    | Some _ => PopDocs []
                    | None => PopNull
                    end)
          end
      end
  | None =>
      match isVirtualTypeWithReferenceOptions (virtualpath (schema (Model this)) name) with
      | None => mret (PopRaw VUndefined)
      | Some vo =>
          match get entity (localField vo) with
          | VUndefined => mret (if justOne vo then PopNull else PopDocs [])
          | _ =>
              model ← registered (vRef vo);
              let fq := buildFilterQuery
                          (Some (getVirtualReferenceFilter vo entity (Some (conditions q)))) in
              _ ← emit (EvFind model fq o);
              s ← getStore;
              let found := applyOptions o (matching fq (collection s model)) in
              mret (if justOne vo
                    then from_option PopDoc PopNull (head found)
                    else PopDocs found)
          end
      end
  end.

(** *** Read operations

    Each read method is overloaded on its [dto] argument. Its body for one
    entity is the definition named [...One], its body for an array the one
    named [...Many], which calls the former for each element as the
    method calls itself. *)

Definition findRelationOne (RelationClass : Class) (relationName : string)
    (dto : Doc) (opts : option FindRelationOptions) : M (option Populated) :=
  _ ← checkForReference "FindRelation" relationName true;
  foundEntity ← findById (modelName (Model this)) (_id dto);
  match foundEntity with
  | None => mret None
  | Some foundEntity =>
      ReferenceModel ← getReferenceModel relationName;
      _ ← useModel ReferenceModel;
      let assembler := entityAssembler RelationClass in
      let filterQuery :=
        buildFilterQuery
          (qFilter (convertQuery assembler (mkQuery (opts ≫= findFilter) None []))) in
      populatedRef ← populate foundEntity relationName filterQuery (mkOpts None None []);
      convertedRef ← ofResult (convertToDTO assembler populatedRef);
      mret (if truthy convertedRef then Some convertedRef else None)
  end.

Definition findRelationMany (RelationClass : Class) (relationName : string)
    (dto : list Entity) (opts : option FindRelationOptions)
  : M (list (Entity * option Populated)) :=
  _ ← checkForReference "FindRelation" relationName true;
  foldl (fun prev curr =>
           map ← prev;
           ref ← findRelationOne RelationClass relationName (doc curr) opts;
           mret (mapSet curr ref map))
        (mret []) dto.

Definition queryRelationsOne (RelationClass : Class) (relationName : string)
    (dto : Doc) (query : Query) : M Populated :=
  _ ← checkForReference "QueryRelations" relationName true;
  foundEntity ← findById (modelName (Model this)) (_id dto);
  match foundEntity with
  | None => mret (PopDocs [])
  | Some foundEntity =>
      let assembler := documentAssembler RelationClass in
      let '(filterQuery, options) := buildQuery (convertQuery assembler query) in
      populate foundEntity relationName filterQuery options
  end.

Definition queryRelationsMany (RelationClass : Class) (relationName : string)
    (dto : list Entity) (query : Query) : M (list (Entity * Populated)) :=
  _ ← checkForReference "QueryRelations" relationName true;
  foldl (fun mapPromise entity =>
           map ← mapPromise;
           refs ← queryRelationsOne RelationClass relationName (doc entity) query;
           mret (mapSet entity refs map))
        (mret []) dto.

Definition aggregateRelationsOne (RelationClass : Class) (relationName : string)
    (dto : Doc) (f : Filter) (aggregateQuery : AggregateQuery)
  : M AggregateResponse :=
  _ ← checkForReference "AggregateRelations" relationName true;
  relationModel ← getReferenceModel relationName;
  let assembler := documentAssembler RelationClass in
  refFilter ← getReferenceFilter relationName dto
                (qFilter (convertQuery assembler (mkQuery (Some f) None [])));
  match refFilter with
  | None => mret ∅
  | Some refFilter =>
      let '(filterQuery, agg) :=
        buildAggregateQuery (convertAggregateQuery assembler aggregateQuery) refFilter in
      model ← useModel relationModel;
      rows ← aggregate (accumulate this) model filterQuery agg;
      mret (match head rows with
            | Some aggResult => convertToAggregateResponse this aggResult
            | None => ∅
            end)
  end.

Definition aggregateRelationsMany (RelationClass : Class) (relationName : string)
    (dto : list Entity) (f : Filter) (aggregateQuery : AggregateQuery)
  : M (list (Entity * AggregateResponse)) :=
  _ ← checkForReference "AggregateRelations" relationName true;
  _ ← getReferenceModel relationName;
  foldl (fun mapPromise entity =>
           map ← mapPromise;
           refs ← aggregateRelationsOne RelationClass relationName (doc entity) f
                    aggregateQuery;
           mret (mapSet entity refs map))
        (mret []) dto.

Definition countRelationsOne (RelationClass : Class) (relationName : string)
    (dto : Doc) (f : Filter) : M nat :=
  _ ← checkForReference "CountRelations" relationName true;
  let assembler := documentAssembler RelationClass in
  relationModel ← getReferenceModel relationName;
  refFilter ← getReferenceFilter relationName dto
                (qFilter (convertQuery assembler (mkQuery (Some f) None [])));
  match refFilter with
  | None => mret 0
  | Some refFilter =>
      model ← useModel relationModel;
      count model (buildFilterQuery (Some refFilter))
  end.

Definition countRelationsMany (RelationClass : Class) (relationName : string)
    (dto : list Entity) (f : Filter) : M (list (Entity * nat)) :=
  _ ← checkForReference "CountRelations" relationName true;
  foldl (fun mapPromise entity =>
           map ← mapPromise;
           refs ← countRelationsOne RelationClass relationName (doc entity) f;
           mret (mapSet entity refs map))
        (mret []) dto.

(** The overloaded methods: one entity, or an array of entity objects. *)

Definition findRelation (RelationClass : Class) (relationName : string)
    (dto : Doc + list Entity) (opts : option FindRelationOptions)
  : M (option Populated + list (Entity * option Populated)) :=
  match dto with
  | inl dto => inl <$> findRelationOne RelationClass relationName dto opts
  | inr dtos => inr <$> findRelationMany RelationClass relationName dtos opts
  end.

Definition queryRelations (RelationClass : Class) (relationName : string)
    (dto : Doc + list Entity) (query : Query)
  : M (Populated + list (Entity * Populated)) :=
  match dto with
  | inl dto => inl <$> queryRelationsOne RelationClass relationName dto query
  | inr dtos => inr <$> queryRelationsMany RelationClass relationName dtos query
  end.

Definition aggregateRelations (RelationClass : Class) (relationName : string)
    (dto : Doc + list Entity) (f : Filter) (aggregateQuery : AggregateQuery)
  : M (AggregateResponse + list (Entity * AggregateResponse)) :=
  match dto with
  | inl dto =>
      inl <$> aggregateRelationsOne RelationClass relationName dto f aggregateQuery
  | inr dtos =>
      inr <$> aggregateRelationsMany RelationClass relationName dtos f aggregateQuery
  end.

Definition countRelations (RelationClass : Class) (relationName : string)
    (dto : Doc + list Entity) (f : Filter) : M (nat + list (Entity * nat)) :=
  match dto with
  | inl dto => inl <$> countRelationsOne RelationClass relationName dto f
  | inr dtos => inr <$> countRelationsMany RelationClass relationName dtos f
  end.

(** *** Mutations *)

Definition addRelations (relationName id : string) (relationIds : list string)
    (opts : option ModifyRelationOptions) : M Doc :=
  _ ← checkForReference "AddRelations" relationName false;
  refCount ← getRefCount relationName relationIds (opts ≫= relationFilter);
  if decide (length relationIds ≠ refCount) then
    throw (Error ("Unable to find all " +:+ relationName +:+ " to add to "
                    +:+ modelName (Model this)))
  else
    findAndUpdate id (opts ≫= modFilter) (UPush relationName relationIds).

Definition setRelation (relationName id relationId : string)
    (opts : option ModifyRelationOptions) : M Doc :=
  _ ← checkForReference "SetRelation" relationName false;
  refCount ← getRefCount relationName [relationId] (opts ≫= relationFilter);
  if decide (refCount ≠ 1) then
    throw (Error ("Unable to find " +:+ relationName +:+ " to set on "
                    +:+ modelName (Model this)))
  else
    findAndUpdate id (opts ≫= modFilter) (USet relationName (VScalar relationId)).

Definition removeRelation (relationName id relationId : string)
    (opts : option ModifyRelationOptions) : M Doc :=
  _ ← checkForReference "RemoveRelation" relationName false;
  refCount ← getRefCount relationName [relationId] (opts ≫= relationFilter);
  if decide (refCount ≠ 1) then
    throw (Error ("Unable to find " +:+ relationName +:+ " to remove from "
                    +:+ modelName (Model this)))
  else
    _ ← findAndUpdate id (opts ≫= modFilter) (UUnset relationName relationId);
    getById id.

Definition removeRelations (relationName id : string) (relationIds : list string)
    (opts : option ModifyRelationOptions) : M Doc :=
  _ ← checkForReference "RemoveRelations" relationName false;
  refCount ← getRefCount relationName relationIds (opts ≫= relationFilter);
  if decide (length relationIds ≠ refCount) then
    throw (Error ("Unable to find all " +:+ relationName +:+ " to remove from "
                    +:+ modelName (Model this)))
  else if isVirtualPath relationName then
    throw (Error ("RemoveRelations not supported for virtual relation "
                    +:+ relationName))
  else
    _ ← findAndUpdate id (opts ≫= modFilter) (UPullAll relationName relationIds);
    getById id.

End ReferenceQueryService.

(** The two faults of the relation check. *)
Definition unknownRelation (this : Service) (refName : string) : Exn :=
  Error ("Unable to find reference " +:+ refName +:+ " on " +:+ modelName (Model this)).

Definition notSupported (operation refName : string) : Exn :=
  Error (operation +:+ " not supported for virtual relation " +:+ refName).

(** A relation resolves to a target model when [getReferenceModel] returns
    that registered model. *)
Definition resolvesTo (this : Service) (refName target : string) : Prop :=
  forall w, getReferenceModel this refName w = (Ok (Some target), w).

(** The world after some more requests have been sent. *)
Definition sent (w : World) (evs : list Event) : World :=
  mkWorld (store w) (trace w ++ evs).

(** The documents of the target that the verification of [relationIds]
    counts, and the request that asks for the count. *)
Definition verified (target : string) (relationIds : list string)
    (opts : option ModifyRelationOptions) (w : World) : list Doc :=
  matching (buildIdFilterQuery (VArray relationIds) (opts ≫= relationFilter))
           (collection (store w) target).

Definition verification (target : string) (relationIds : list string)
    (opts : option ModifyRelationOptions) : Event :=
  EvCount target (buildIdFilterQuery (VArray relationIds) (opts ≫= relationFilter)).


Definition updateRequest (this : Service) (id : string)
    (opts : option ModifyRelationOptions) (u : UpdateQuery) : Event :=
  EvFindOneAndUpdate (modelName (Model this))
    (buildIdFilterQuery (VScalar id) (opts ≫= modFilter)) u.


(** A computation that only reads: on every store it leaves the store as
    it is, and its result and the requests it sends depend on the store
    alone; every request it sends satisfies [P]. *)
Definition reads {A} (P : Event -> Prop) (m : M A) : Prop :=
  forall s, exists r evs,
    Forall P evs /\ forall tr, m (mkWorld s tr) = (r, mkWorld s (tr ++ evs)).

Definition isCount (e : Event) : Prop := exists model q, e = EvCount model q.
Definition isAggregate (e : Event) : Prop :=
  exists model q agg, e = EvAggregate model q agg.
Definition isQuery (e : Event) : Prop := isWrite e = false.

(** The frame of a mutation of the entity [id]: the collections of the
    other models and the other documents of the primary collection are as
    before. *)
Definition preserves (this : Service) (id : string) (s s' : Store) : Prop :=
  (forall model, model ≠ modelName (Model this) -> s' !! model = s !! model) /\
  (forall id', id' ≠ id ->
     collection s' (modelName (Model this)) !! id'
     = collection s (modelName (Model this)) !! id').

(** The requests a mutation of the entity [id] may send: counts, the
    update of the entity selected by its id in the primary collection, and
    its reload by id. *)
Definition allowedRequest (this : Service) (id : string) (e : Event) : Prop :=
  match e with
  | EvCount _ _ => True
  | EvFindOneAndUpdate model q _ =>
      model = modelName (Model this) /\ idMatch q = Some (VScalar id)
  | EvFindById model i => model = modelName (Model this) /\ i = id
  | EvFind _ _ _ | EvAggregate _ _ _ => False
  end.

Definition frames {A} (this : Service) (id : string) (m : M A) : Prop :=
  forall w,
    preserves this id (store w) (store (snd (m w))) /\
    exists evs, trace (snd (m w)) = trace w ++ evs /\
                Forall (allowedRequest this id) evs.

(** The native query that countRelations and aggregateRelations send for
    a direct reference: the caller's filter, converted by the assembler,
    merged with the constraint on [_id] built from the entity passed in. *)
Definition referenceQuery (RelationClass : Class) (refName : string)
    (entity : Doc) (f : Filter) : FilterQuery :=
  buildFilterQuery
    (Some (getObjectIdReferenceFilter refName entity
             (qFilter (convertQuery (documentAssembler RelationClass)
                         (mkQuery (Some f) None []))))).

(** The ids an array field links: none when the field is missing; a
    scalar field is no array. *)
Definition links (v : Value) : option (list string) :=
  match v with
  | VUndefined => Some []
  | VArray l => Some l
  | VScalar _ => None
  end.

(** The entity objects of a list, each one at its first occurrence. *)
Fixpoint firstOccurrences (es : list Entity) : list Entity :=
  match es with
  | [] => []
  | e :: r => e :: filter (fun e' => addr e' ≠ addr e) (firstOccurrences r)
  end.

(** The world after the entity [id] of the primary collection has got the
    fields [fs] and the requests [evs] have been sent. *)
Definition updated (this : Service) (id : string) (fs : gmap string Value)
    (w : World) (evs : list Event) : World :=
  mkWorld (<[modelName (Model this) :=
               <[id := fs]> (collection (store w) (modelName (Model this)))]> (store w))
          (trace w ++ evs).

(** The target documents a virtual lookup relates to an entity: those
    whose foreign field holds the entity's local value (one of its values,
    when the local value is an array) and that satisfy the filter. *)
Definition lookedUp (vo : VirtualOptions) (entity : Doc) (f : Filter)
    (c : Collection) : list Doc :=
  filter (fun d =>
            filterHolds f d = true /\
            cmpHolds (match get entity (localField vo) with
                      | VArray l => CmpIn l
                      | v => CmpEq v
                      end) (get d (foreignField vo)) = true)
         (docs c).

(** A relation whose path is an array of references. *)
Definition isArrayReference (this : Service) (refName : string) : bool :=
  match path (schema (Model this)) refName with
  | Some st => isArrayPath st
  | None => false
  end.


(** ** A concrete service

    A [Post] entity with an array of references [tags] to [Tag], a single
    reference [owner] to [User], and a virtual [comments] that looks
    [Comment] documents up by their [post] field. *)
Module Blog.

Definition postSchema : Schema :=
  mkSchema
    (<["tags" := mkSchemaType (Some "Tag") None]>
       (<["owner" := mkSchemaType None (Some "User")]> ∅))
    (<["comments" := mkVirtual (Some (mkVirtualOptions "Comment" "_id" "post" false))]> ∅).

(** The [$group] stage of the example counts the matched documents for
    each field asked for. *)
Definition countRows (agg : AggregateQuery) (ds : list Doc) : Row :=
  list_to_map ((fun f => (f, VScalar (pretty (length ds)))) <$> aggCount agg).

Definition posts : Service :=
  mkService (mkModel "Post" postSchema)
            (list_to_set ["Post"; "Tag"; "User"; "Comment"])
            countRows
            (fun row => {["count" := row]}).

Definition relation : Class := mkClass defaultAssembler defaultAssembler.

(** One post [p1] without tags, the tags [t1] and [t2], the user [u1]. *)
Definition store0 : Store :=
  <["Post" := {["p1" := {["tags" := VArray []]}]}]>
    (<["Tag" := <["t1" := ∅]> {["t2" := ∅]}]>
       {["User" := {["u1" := ∅]}]}).

Definition world0 : World := mkWorld store0 [].

(** The post as a caller holds it, and a stale copy of a post [p9] that
    is not in the collection but still lists the tag [t1]. *)
Definition p1 : Doc := mkDoc "p1" {["tags" := VArray []]}.
Definition p9 : Doc := mkDoc "p9" {["tags" := VArray ["t1"]]}.

Definition countAll : AggregateQuery := mkAgg ["_id"] [] [] [] [].

(** A later state: [p1] has the tags [t1] and [t2] and the owner [u1]; the
    comments [c1] and [c2] are on [p1], [c3] is on another post. *)
Definition store1 : Store :=
  <["Post" := {["p1" := <["tags" := VArray ["t1"; "t2"]]> {["owner" := VScalar "u1"]}]}]>
    (<["Tag" := <["t1" := ∅]> {["t2" := ∅]}]>
       (<["User" := {["u1" := ∅]}]>
          {["Comment" := <["c1" := {["post" := VScalar "p1"]}]>
                           (<["c2" := {["post" := VScalar "p1"]}]>
                              {["c3" := {["post" := VScalar "p2"]}]})]})).

Definition world1 : World := mkWorld store1 [].

Definition p1' : Doc :=
  mkDoc "p1" (<["tags" := VArray ["t1"; "t2"]]> {["owner" := VScalar "u1"]}).

(** A schema with a path [title] that references nothing. *)
Definition plainSchema : Schema :=
  mkSchema {["title" := mkSchemaType None None]} ∅.

Definition plain : Service :=
  mkService (mkModel "Post" plainSchema) (list_to_set ["Post"]) countRows
            (fun row => {["count" := row]}).

End Blog.

(** * Properties *)

(** ** Running the monad *)

Lemma run_bind {A B} (m : M A) (f : A -> M B) (w : World) :
  (m ≫= f) w =
  match m w with
  | (Ok a, w') => f a w'
  | (Throw e, w') => (Throw e, w')
  end.
Proof. reflexivity. Qed.

Lemma run_bind_throw {A B} (m : M A) (f : A -> M B) (w w' : World) (e : Exn) :
  m w = (Throw e, w') -> (m ≫= f) w = (Throw e, w').
Proof. intros H. rewrite run_bind, H. reflexivity. Qed.

Lemma run_bind_ok {A B} (m : M A) (f : A -> M B) (w w' : World) (a : A) :
  m w = (Ok a, w') -> (m ≫= f) w = f a w'.
Proof. intros H. rewrite run_bind, H. reflexivity. Qed.

(** Sequencing of the primitive steps of the monad. *)
Ltac run :=
  repeat first
    [ rewrite run_bind
    | progress cbv beta iota delta [mret M_ret emit getStore putStore throw ofResult]
    | progress cbn [store trace] ].

(** ** The relation check *)

Section Check.

Variable this : Service.

Lemma checkForReference_unknown operation refName allowVirtual w :
  isReferencePath this refName = false ->
  isVirtualPath this refName = false ->
  checkForReference this operation refName allowVirtual w
  = (Throw (unknownRelation this refName), w).
Proof.
  intros Hr Hv. unfold checkForReference. rewrite Hr, Hv. reflexivity.
Qed.

Lemma checkForReference_reference operation refName allowVirtual w :
  isReferencePath this refName = true ->
  checkForReference this operation refName allowVirtual w = (Ok tt, w).
Proof. intros Hr. unfold checkForReference. rewrite Hr. reflexivity. Qed.

Lemma checkForReference_virtual_allowed operation refName w :
  isVirtualPath this refName = true ->
  checkForReference this operation refName true w = (Ok tt, w).
Proof.
  intros Hv. unfold checkForReference. rewrite Hv.
  destruct (isReferencePath this refName); reflexivity.
Qed.

Lemma checkForReference_virtual_denied operation refName w :
  isReferencePath this refName = false ->
  isVirtualPath this refName = true ->
  checkForReference this operation refName false w
  = (Throw (notSupported operation refName), w).
Proof.
  intros Hr Hv. unfold checkForReference. rewrite Hr, Hv. reflexivity.
Qed.

End Check.

(** C1. A relation name that is neither a path nor a virtual path of the
    schema makes every operation, on one entity as on an array of them,
    throw "Unable to find reference ..." and leave the world as it was: the
    store is unchanged and no request has been recorded in the trace. *)
Theorem unknown_relation_fails_before_store
    (this : Service) (RelationClass : Class) (relationName : string)
    (dto : Doc + list Entity) (findOpts : option FindRelationOptions)
    (query : Query) (f : Filter) (agg : AggregateQuery)
    (id relationId : string) (relationIds : list string)
    (opts : option ModifyRelationOptions) (w : World) :
  isReferencePath this relationName = false ->
  isVirtualPath this relationName = false ->
  let fails {A} (m : M A) := m w = (Throw (unknownRelation this relationName), w) in
  fails (findRelation this RelationClass relationName dto findOpts) /\
  fails (queryRelations this RelationClass relationName dto query) /\
  fails (aggregateRelations this RelationClass relationName dto f agg) /\
  fails (countRelations this RelationClass relationName dto f) /\
  fails (addRelations this relationName id relationIds opts) /\
  fails (setRelation this relationName id relationId opts) /\
  fails (removeRelation this relationName id relationId opts) /\
  fails (removeRelations this relationName id relationIds opts).
Proof.
  intros Hr Hv fails. unfold fails.
  assert (forall operation allowVirtual,
            checkForReference this operation relationName allowVirtual w
            = (Throw (unknownRelation this relationName), w)) as Hcheck.
  { intros. by apply checkForReference_unknown. }
  repeat split.
  - destruct dto; apply run_bind_throw, run_bind_throw, Hcheck.
  - destruct dto; apply run_bind_throw, run_bind_throw, Hcheck.
  - destruct dto; apply run_bind_throw, run_bind_throw, Hcheck.
  - destruct dto; apply run_bind_throw, run_bind_throw, Hcheck.
  - apply run_bind_throw, Hcheck.
  - apply run_bind_throw, Hcheck.
  - apply run_bind_throw, Hcheck.
  - apply run_bind_throw, Hcheck.
Qed.

Lemma unknown_relation_fails_before_store_witness :
  addRelations Blog.posts "author" "p1" ["t1"] None Blog.world0
  = (Throw (Error "Unable to find reference author on Post"), Blog.world0).
Proof.
  pose proof (unknown_relation_fails_before_store Blog.posts Blog.relation
                "author" (inl Blog.p1) None (mkQuery None None []) FEmpty
                Blog.countAll "p1" "u1" ["t1"] None Blog.world0
                eq_refl eq_refl) as H.
  cbv zeta in H. apply H.
Defined.

(** ** The verification of the relation targets *)

Section Verification.

Variable this : Service.

Lemma getRefCount_run relationName target relationIds opts w :
  resolvesTo this relationName target ->
  getRefCount this relationName relationIds (opts ≫= relationFilter) w
  = (Ok (length (verified target relationIds opts w)),
     sent w [verification target relationIds opts]).
Proof.
  intros Hres. unfold getRefCount. rewrite run_bind, (Hres w). reflexivity.
Qed.


Lemma findAndUpdate_cast_error id f u e w :
  castUpdate (schema (Model this)) u = Throw e ->
  findAndUpdate this id f u w = (Throw e, w).
Proof.
  unfold findAndUpdate, findOneAndUpdate. intros Hcast. rewrite Hcast. by run.
Qed.

Lemma castUpdate_push relationName relationIds :
  isArrayReference this relationName = true ->
  castUpdate (schema (Model this)) (UPush relationName relationIds)
  = Ok (UPush relationName relationIds).
Proof.
  unfold isArrayReference, castUpdate.
  destruct (path _ _) as [st|]; [|done]. by intros ->.
Qed.


Lemma sent_sent w evs evs' : sent (sent w evs) evs' = sent w (evs ++ evs').
Proof. unfold sent. cbn [store trace]. by rewrite <- (assoc_L (++)). Qed.

Lemma addRelations_mismatch relationName target id relationIds opts w :
  isReferencePath this relationName = true ->
  resolvesTo this relationName target ->
  length (verified target relationIds opts w) ≠ length relationIds ->
  addRelations this relationName id relationIds opts w
  = (Throw (Error ("Unable to find all " +:+ relationName +:+ " to add to "
                     +:+ modelName (Model this))),
     sent w [verification target relationIds opts]).
Proof.
  intros Hpath Hres Hcount. unfold addRelations.
  rewrite run_bind, checkForReference_reference by done.
  rewrite run_bind, (getRefCount_run _ target) by done.
  rewrite decide_True by congruence. reflexivity.
Qed.

Lemma removeRelations_mismatch relationName target id relationIds opts w :
  isReferencePath this relationName = true ->
  resolvesTo this relationName target ->
  length (verified target relationIds opts w) ≠ length relationIds ->
  removeRelations this relationName id relationIds opts w
  = (Throw (Error ("Unable to find all " +:+ relationName +:+ " to remove from "
                     +:+ modelName (Model this))),
     sent w [verification target relationIds opts]).
Proof.
  intros Hpath Hres Hcount. unfold removeRelations.
  rewrite run_bind, checkForReference_reference by done.
  rewrite run_bind, (getRefCount_run _ target) by done.
  rewrite decide_True by congruence. reflexivity.
Qed.

Lemma setRelation_mismatch relationName target id relationId opts w :
  isReferencePath this relationName = true ->
  resolvesTo this relationName target ->
  length (verified target [relationId] opts w) ≠ 1 ->
  setRelation this relationName id relationId opts w
  = (Throw (Error ("Unable to find " +:+ relationName +:+ " to set on "
                     +:+ modelName (Model this))),
     sent w [verification target [relationId] opts]).
Proof.
  intros Hpath Hres Hcount. unfold setRelation.
  rewrite run_bind, checkForReference_reference by done.
  rewrite run_bind, (getRefCount_run _ target) by done.
  rewrite decide_True by done. reflexivity.
Qed.

Lemma removeRelation_mismatch relationName target id relationId opts w :
  isReferencePath this relationName = true ->
  resolvesTo this relationName target ->
  length (verified target [relationId] opts w) ≠ 1 ->
  removeRelation this relationName id relationId opts w
  = (Throw (Error ("Unable to find " +:+ relationName +:+ " to remove from "
                     +:+ modelName (Model this))),
     sent w [verification target [relationId] opts]).
Proof.
  intros Hpath Hres Hcount. unfold removeRelation.
  rewrite run_bind, checkForReference_reference by done.
  rewrite run_bind, (getRefCount_run _ target) by done.
  rewrite decide_True by done. reflexivity.
Qed.

(** Once the verification has passed, each mutation is its update of the
    entity, run after the count request. *)
Lemma addRelations_verified relationName target id relationIds opts w :
  isReferencePath this relationName = true ->
  resolvesTo this relationName target ->
  length (verified target relationIds opts w) = length relationIds ->
  addRelations this relationName id relationIds opts w
  = findAndUpdate this id (opts ≫= modFilter) (UPush relationName relationIds)
      (sent w [verification target relationIds opts]).
Proof.
  intros Hpath Hres Hcount. unfold addRelations.
  rewrite run_bind, checkForReference_reference by done.
  rewrite run_bind, (getRefCount_run _ target) by done.
  rewrite decide_False by (intros ?; congruence). reflexivity.
Qed.

Lemma setRelation_verified relationName target id relationId opts w :
  isReferencePath this relationName = true ->
  resolvesTo this relationName target ->
  length (verified target [relationId] opts w) = 1 ->
  setRelation this relationName id relationId opts w
  = findAndUpdate this id (opts ≫= modFilter) (USet relationName (VScalar relationId))
      (sent w [verification target [relationId] opts]).
Proof.
  intros Hpath Hres Hcount. unfold setRelation.
  rewrite run_bind, checkForReference_reference by done.
  rewrite run_bind, (getRefCount_run _ target) by done.
  rewrite decide_False by (intros ?; congruence). reflexivity.
Qed.

Lemma removeRelation_verified relationName target id relationId opts w :
  isReferencePath this relationName = true ->
  resolvesTo this relationName target ->
  length (verified target [relationId] opts w) = 1 ->
  removeRelation this relationName id relationId opts w
  = (findAndUpdate this id (opts ≫= modFilter) (UUnset relationName relationId)
       ≫= fun _ => getById this id)
      (sent w [verification target [relationId] opts]).
Proof.
  intros Hpath Hres Hcount. unfold removeRelation.
  rewrite run_bind, checkForReference_reference by done.
  rewrite run_bind, (getRefCount_run _ target) by done.
  rewrite decide_False by (intros ?; congruence). reflexivity.
Qed.

Lemma removeRelations_verified relationName target id relationIds opts w :
  isReferencePath this relationName = true ->
  isVirtualPath this relationName = false ->
  resolvesTo this relationName target ->
  length (verified target relationIds opts w) = length relationIds ->
  removeRelations this relationName id relationIds opts w
  = (findAndUpdate this id (opts ≫= modFilter) (UPullAll relationName relationIds)
       ≫= fun _ => getById this id)
      (sent w [verification target relationIds opts]).
Proof.
  intros Hpath Hvirt Hres Hcount. unfold removeRelations.
  rewrite run_bind, checkForReference_reference by done.
  rewrite run_bind, (getRefCount_run _ target) by done.
  rewrite decide_False by (intros ?; congruence). rewrite Hvirt. reflexivity.
Qed.

End Verification.

(** C2. For a direct-reference relation whose target model resolves: when
    the number of target documents that match the relation ids under the
    optional relation filter differs from the expected one (the length of
    the list for addRelations and removeRelations, one for setRelation and
    removeRelation), the operation throws its "Unable to find ..." error;
    the store is left as it was and the count is the only request sent. *)
Theorem failed_verification_leaves_entity
    (this : Service) (relationName target id relationId : string)
    (relationIds : list string) (opts : option ModifyRelationOptions) (w : World) :
  isReferencePath this relationName = true ->
  resolvesTo this relationName target ->
  let unable what how :=
    Error ("Unable to find " +:+ what +:+ relationName +:+ how
             +:+ modelName (Model this)) in
  (length (verified target relationIds opts w) ≠ length relationIds ->
   addRelations this relationName id relationIds opts w
   = (Throw (unable "all " " to add to "),
      sent w [verification target relationIds opts]) /\
   removeRelations this relationName id relationIds opts w
   = (Throw (unable "all " " to remove from "),
      sent w [verification target relationIds opts])) /\
  (length (verified target [relationId] opts w) ≠ 1 ->
   setRelation this relationName id relationId opts w
   = (Throw (unable "" " to set on "),
      sent w [verification target [relationId] opts]) /\
   removeRelation this relationName id relationId opts w
   = (Throw (unable "" " to remove from "),
      sent w [verification target [relationId] opts])).
Proof.
  intros Hpath Hres unable. split; intros Hcount; split.
  - by apply addRelations_mismatch.
  - by apply removeRelations_mismatch.
  - by apply setRelation_mismatch.
  - by apply removeRelation_mismatch.
Qed.

Lemma failed_verification_leaves_entity_witness :
  addRelations Blog.posts "tags" "p1" ["t1"; "t3"] None Blog.world0
  = (Throw (Error "Unable to find all tags to add to Post"),
     sent Blog.world0 [verification "Tag" ["t1"; "t3"] None]) /\
  setRelation Blog.posts "owner" "p1" "u404" None Blog.world0
  = (Throw (Error "Unable to find owner to set on Post"),
     sent Blog.world0 [verification "User" ["u404"] None]).
Proof.
  split.
  - refine (proj1 (proj1 (failed_verification_leaves_entity Blog.posts "tags" "Tag"
                     "p1" "t9" ["t1"; "t3"] None Blog.world0 eq_refl _) _)).
    + intros w. reflexivity.
    + vm_compute. lia.
  - refine (proj1 (proj2 (failed_verification_leaves_entity Blog.posts "owner" "User"
                     "p1" "u404" [] None Blog.world0 eq_refl _) _)).
    + intros w. reflexivity.
    + vm_compute. lia.
Defined.

(** ** Not found under the caller's scope *)




(** ** Computations that only read *)

Section Reads.

Context {A B : Type}.

Lemma reads_ret P (a : A) : reads P (mret a).
Proof. intros s. exists (Ok a), []. split; [constructor|]. intros tr. run. by rewrite app_nil_r. Qed.

Lemma reads_throw P e : reads P (@throw A e).
Proof. intros s. exists (Throw e), []. split; [constructor|]. intros tr. run. by rewrite app_nil_r. Qed.

Lemma reads_bind P (m : M A) (f : A -> M B) :
  reads P m -> (forall a, reads P (f a)) -> reads P (m ≫= f).
Proof.
  intros Hm Hf s. destruct (Hm s) as (r & evs & HP & Hrun).
  destruct r as [a|e].
  - destruct (Hf a s) as (r' & evs' & HP' & Hrun').
    exists r', (evs ++ evs'). split; [by apply Forall_app|].
    intros tr. rewrite run_bind, Hrun, Hrun'. by rewrite (assoc_L (++)).
  - exists (Throw e), evs. split; [done|].
    intros tr. by rewrite run_bind, Hrun.
Qed.

Lemma reads_weaken (P Q : Event -> Prop) (m : M A) :
  (forall e, P e -> Q e) -> reads P m -> reads Q m.
Proof.
  intros HPQ Hm s. destruct (Hm s) as (r & evs & HP & Hrun).
  exists r, evs. split; [|done]. eapply Forall_impl; eauto.
Qed.

End Reads.

Lemma reads_emit P e : P e -> reads P (emit e).
Proof.
  intros He s. exists (Ok tt), [e]. split; [by repeat constructor|]. intros tr. by run.
Qed.

Lemma reads_getStore P : reads P getStore.
Proof.
  intros s. exists (Ok s), []. split; [constructor|]. intros tr. run. by rewrite app_nil_r.
Qed.

(** One step of a proof that a computation only reads; the requests it
    sends are left as goals. *)
Ltac reads_step :=
  first
    [ apply reads_ret
    | apply reads_throw
    | apply reads_getStore
    | apply reads_emit
    | apply reads_bind; [|intros ?]
    | match goal with
      | |- reads _ (match ?x with _ => _ end) => destruct x
      | |- reads _ (if ?x then _ else _) => destruct x
      | |- reads _ (let (_, _) := ?x in _) => destruct x
      end ].

Section ReadRequests.

Variable this : Service.

Lemma reads_findById P model id :
  P (EvFindById model id) -> reads P (findById model id).
Proof. intros HP. unfold findById. repeat reads_step. done. Qed.

Lemma reads_count P model q : P (EvCount model q) -> reads P (count model q).
Proof. intros HP. unfold count. repeat reads_step. done. Qed.

Lemma reads_aggregate P acc model q agg :
  P (EvAggregate model q agg) -> reads P (aggregate acc model q agg).
Proof. intros HP. unfold aggregate. repeat reads_step. done. Qed.

Lemma reads_checkForReference P operation refName allowVirtual :
  reads P (checkForReference this operation refName allowVirtual).
Proof. unfold checkForReference. repeat reads_step. Qed.

Lemma reads_getReferenceModel P refName : reads P (getReferenceModel this refName).
Proof. unfold getReferenceModel. repeat reads_step. Qed.

Lemma reads_useModel P m : reads P (useModel m).
Proof. unfold useModel. repeat reads_step. Qed.

Lemma reads_getReferenceFilter P refName entity f :
  reads P (getReferenceFilter this refName entity f).
Proof. unfold getReferenceFilter. repeat reads_step. Qed.

Lemma reads_ofResult {A} P (r : Result A) : reads P (ofResult r).
Proof. destruct r; [apply reads_ret|apply reads_throw]. Qed.

Lemma reads_populate entity name q o : reads isQuery (populate this entity name q o).
Proof. unfold populate. repeat reads_step; done. Qed.

Lemma reads_findRelationOne RelationClass relationName dto opts :
  reads isQuery (findRelationOne this RelationClass relationName dto opts).
Proof.
  unfold findRelationOne.
  repeat first [ apply reads_checkForReference | apply reads_findById
               | apply reads_getReferenceModel | apply reads_useModel
               | apply reads_populate | apply reads_ofResult | reads_step ]; done.
Qed.

Lemma reads_queryRelationsOne RelationClass relationName dto query :
  reads isQuery (queryRelationsOne this RelationClass relationName dto query).
Proof.
  unfold queryRelationsOne.
  repeat first [ apply reads_checkForReference | apply reads_findById
               | apply reads_populate | reads_step ]; done.
Qed.

Lemma reads_aggregateRelationsOne RelationClass relationName dto f agg :
  reads isAggregate (aggregateRelationsOne this RelationClass relationName dto f agg).
Proof.
  unfold aggregateRelationsOne.
  repeat first [ apply reads_checkForReference | apply reads_getReferenceModel
               | apply reads_getReferenceFilter | apply reads_useModel
               | apply reads_aggregate | reads_step ].
  red; eauto.
Qed.

Lemma reads_countRelationsOne RelationClass relationName dto f :
  reads isCount (countRelationsOne this RelationClass relationName dto f).
Proof.
  unfold countRelationsOne.
  repeat first [ apply reads_checkForReference | apply reads_getReferenceModel
               | apply reads_getReferenceFilter | apply reads_useModel
               | apply reads_count | reads_step ].
  red; eauto.
Qed.

End ReadRequests.

(** ** Batched reads *)

Lemma reads_run {A} P (m : M A) (w : World) :
  reads P m ->
  exists evs, m w = (fst (m w), sent w evs) /\
              forall evs0, fst (m (sent w evs0)) = fst (m w).
Proof.
  intros Hm. destruct (Hm (store w)) as (r & evs & _ & Hrun).
  exists evs. destruct w as [s tr]. cbn [store] in Hrun. unfold sent. cbn [store trace].
  split.
  - by rewrite Hrun.
  - intros evs0. by rewrite !Hrun.
Qed.

Lemma mapSet_fresh {V} (k : Entity) (v : V) (m : list (Entity * V)) :
  addr k ∉ (addr ∘ fst) <$> m -> mapSet k v m = m ++ [(k, v)].
Proof.
  induction m as [|[k' v'] m IH]; intros Hfresh; [done|].
  cbn [mapSet]. rewrite fmap_cons, not_elem_of_cons in Hfresh.
  destruct Hfresh as [Hne Hfresh]. cbn in Hne.
  rewrite decide_False by congruence. by rewrite IH.
Qed.

(** The fold of a batched read: when the single-entity operation only
    reads and returns [res e] for each entity of the list, the fold returns
    the entries [(e, res e)] in the order of the list. *)
Lemma batch_run {V} P (one : Doc -> M V) (res : Entity -> V)
    (es : list Entity) (w : World) :
  (forall d, reads P (one d)) ->
  NoDup (addr <$> es) ->
  (forall e, e ∈ es -> fst (one (doc e) w) = Ok (res e)) ->
  exists evs,
    foldl (fun prev curr =>
             map ← prev; ref ← one (doc curr); mret (mapSet curr ref map))
          (mret []) es w
    = (Ok ((fun e => (e, res e)) <$> es), sent w evs).
Proof.
  intros Hreads. induction es as [|e es IH] using rev_ind; intros Hnodup Hone.
  - exists []. unfold sent. rewrite app_nil_r. by destruct w.
  - rewrite fmap_app in Hnodup. apply NoDup_app in Hnodup as (Hnodup & Hfresh & _).
    destruct IH as [evs IH]; [done| |].
    { intros e' He'. apply Hone. set_solver. }
    rewrite foldl_snoc, run_bind, IH.
    destruct (reads_run P (one (doc e)) (sent w evs) (Hreads _)) as (evs' & Hrun & _).
    destruct (reads_run P (one (doc e)) w (Hreads _)) as (_ & _ & Hsame).
    rewrite run_bind, Hrun, Hsame, Hone by set_solver.
    exists (evs ++ evs'). run. rewrite sent_sent. f_equal. f_equal.
    rewrite fmap_app. apply mapSet_fresh.
    rewrite <- list_fmap_compose. intros Hin.
    apply (Hfresh (addr e)); [|cbn; constructor].
    destruct (list_elem_of_fmap_1 _ _ _ Hin) as (e' & Heq & He').
    rewrite Heq. by apply (list_elem_of_fmap_2 addr).
Qed.

Lemma checkForReference_declared this operation refName w :
  isReferencePath this refName = true \/ isVirtualPath this refName = true ->
  checkForReference this operation refName true w = (Ok tt, w).
Proof.
  intros [H|H].
  - by apply checkForReference_reference.
  - by apply checkForReference_virtual_allowed.
Qed.

(** C7. For a declared relation and a list of pairwise distinct entity
    objects: when the single-entity operation returns a result for each
    entity of the list, the batched operation returns the map whose entries
    are, in the order of the list, each entity with that result (so one
    entry per entity, empty results included); the store is unchanged.
    aggregateRelations looks the reference model up before it folds, so
    its batched form also needs that lookup not to throw. *)
Theorem batched_reads_map_each_entity
    (this : Service) (RelationClass : Class) (relationName : string)
    (dtos : list Entity) (findOpts : option FindRelationOptions) (query : Query)
    (f : Filter) (agg : AggregateQuery) (w : World) (model : option string)
    (found : Entity -> option Populated) (queried : Entity -> Populated)
    (aggregated : Entity -> AggregateResponse) (counted : Entity -> nat) :
  isReferencePath this relationName = true \/ isVirtualPath this relationName = true ->
  NoDup (addr <$> dtos) ->
  ((forall e, e ∈ dtos ->
      fst (findRelationOne this RelationClass relationName (doc e) findOpts w)
      = Ok (found e)) ->
   exists evs, findRelationMany this RelationClass relationName dtos findOpts w
               = (Ok ((fun e => (e, found e)) <$> dtos), sent w evs)) /\
  ((forall e, e ∈ dtos ->
      fst (queryRelationsOne this RelationClass relationName (doc e) query w)
      = Ok (queried e)) ->
   exists evs, queryRelationsMany this RelationClass relationName dtos query w
               = (Ok ((fun e => (e, queried e)) <$> dtos), sent w evs)) /\
  (fst (getReferenceModel this relationName w) = Ok model ->
   (forall e, e ∈ dtos ->
      fst (aggregateRelationsOne this RelationClass relationName (doc e) f agg w)
      = Ok (aggregated e)) ->
   exists evs, aggregateRelationsMany this RelationClass relationName dtos f agg w
               = (Ok ((fun e => (e, aggregated e)) <$> dtos), sent w evs)) /\
  ((forall e, e ∈ dtos ->
      fst (countRelationsOne this RelationClass relationName (doc e) f w)
      = Ok (counted e)) ->
   exists evs, countRelationsMany this RelationClass relationName dtos f w
               = (Ok ((fun e => (e, counted e)) <$> dtos), sent w evs)).
Proof.
  intros Hdecl Hnodup. split; [|split; [|split]];
    [intros Hone|intros Hone|intros Hmodel Hone|intros Hone].
  - unfold findRelationMany.
    rewrite run_bind, checkForReference_declared by done.
    apply (batch_run isQuery
             (fun d => findRelationOne this RelationClass relationName d findOpts) found);
      auto using reads_findRelationOne.
  - unfold queryRelationsMany.
    rewrite run_bind, checkForReference_declared by done.
    apply (batch_run isQuery
             (fun d => queryRelationsOne this RelationClass relationName d query) queried);
      auto using reads_queryRelationsOne.
  - unfold aggregateRelationsMany.
    rewrite run_bind, checkForReference_declared by done.
    destruct (reads_run isQuery (getReferenceModel this relationName) w
                (reads_getReferenceModel _ _ _)) as (evs0 & Hrun & _).
    rewrite run_bind, Hrun, Hmodel.
    destruct (batch_run isAggregate
                (fun d => aggregateRelationsOne this RelationClass relationName d f agg)
                aggregated dtos (sent w evs0)) as [evs Hfold].
    + intros d. apply reads_aggregateRelationsOne.
    + done.
    + intros e He.
      destruct (reads_run isAggregate
                  (aggregateRelationsOne this RelationClass relationName (doc e) f agg) w
                  (reads_aggregateRelationsOne _ _ _ _ _ _)) as (_ & _ & Hsame).
      rewrite Hsame. by apply Hone.
    + exists (evs0 ++ evs). rewrite Hfold. by rewrite sent_sent.
  - unfold countRelationsMany.
    rewrite run_bind, checkForReference_declared by done.
    apply (batch_run isCount
             (fun d => countRelationsOne this RelationClass relationName d f) counted);
      auto using reads_countRelationsOne.
Qed.

Lemma batched_reads_map_each_entity_witness :
  exists evs,
    countRelationsMany Blog.posts Blog.relation "tags"
      [mkEntity 1 Blog.p1; mkEntity 2 Blog.p9] FEmpty Blog.world0
    = (Ok [(mkEntity 1 Blog.p1, 0); (mkEntity 2 Blog.p9, 1)], sent Blog.world0 evs).
Proof.
  refine (proj2 (proj2 (proj2
            (batched_reads_map_each_entity Blog.posts Blog.relation "tags"
               [mkEntity 1 Blog.p1; mkEntity 2 Blog.p9] None (mkQuery None None [])
               FEmpty Blog.countAll Blog.world0 (Some "Tag")
               (fun _ => None) (fun _ => PopDocs []) (fun _ => ∅)
               (fun e => if decide (addr e = 1) then 0 else 1)
               (or_introl eq_refl) _))) _).
  - apply (bool_decide_unpack _). vm_compute. exact I.
  - intros e He.
    apply elem_of_cons in He as [->|He]; [vm_compute; reflexivity|].
    apply elem_of_cons in He as [->|He]; [vm_compute; reflexivity|].
    by apply not_elem_of_nil in He.
Defined.

(** ** Direct references and virtual lookups *)

Section Kinds.

Variable this : Service.

Lemma isReferencePath_false refName :
  isReferencePath this refName = false -> path (schema (Model this)) refName = None.
Proof.
  unfold isReferencePath. intros H. apply bool_decide_eq_false in H.
  by apply eq_None_not_Some.
Qed.

Lemma isReferencePath_true refName :
  isReferencePath this refName = true ->
  exists st, path (schema (Model this)) refName = Some st.
Proof. unfold isReferencePath. intros H. by apply bool_decide_eq_true in H. Qed.

(** What a resolved relation is: a path whose schema type names a
    registered model, or else a virtual whose options do. *)
Lemma resolvesTo_inv refName target :
  resolvesTo this refName target ->
  (isReferencePath this refName = true /\
   exists st ref,
     path (schema (Model this)) refName = Some st /\
     from_option Some (optionsRef st) (embeddedRef st) = Some ref /\
     getModelWithString this ref = Some target) \/
  (isReferencePath this refName = false /\
   isVirtualPath this refName = true /\
   exists vo,
     isVirtualTypeWithReferenceOptions (virtualpath (schema (Model this)) refName)
     = Some vo /\
     getModelWithString this (vRef vo) = Some target).
Proof.
  intros Hres. specialize (Hres (mkWorld ∅ [])). unfold getReferenceModel in Hres.
  destruct (isReferencePath this refName) eqn:Hpath.
  - left. split; [done|].
    destruct (isReferencePath_true _ Hpath) as [st Hst]. rewrite Hst in Hres.
    exists st. cbn in Hres. destruct (embeddedRef st) as [ref|] eqn:Hemb.
    + exists ref. cbn. repeat split; [done|]. by inversion Hres.
    + destruct (optionsRef st) as [ref|] eqn:Hopt; [|done].
      exists ref. cbn. repeat split; [done|]. by inversion Hres.
  - right. split; [done|].
    destruct (isVirtualPath this refName) eqn:Hvirt; [|done]. split; [done|].
    destruct (isVirtualTypeWithReferenceOptions _) as [vo|] eqn:Hvo; [|done].
    exists vo. split; [done|]. by inversion Hres.
Qed.

Lemma resolvesTo_declared refName target :
  resolvesTo this refName target ->
  isReferencePath this refName = true \/ isVirtualPath this refName = true.
Proof. intros [[? _]|(_ & ? & _)]%resolvesTo_inv; auto. Qed.

Lemma populate_returns entity refName target q o w :
  resolvesTo this refName target ->
  exists p w', populate this entity refName q o w = (Ok p, w').
Proof.
  intros [(_ & st & ref & Hst & Href & Hmodel)
         |(Hpath%isReferencePath_false & _ & vo & Hvo & Hmodel)]%resolvesTo_inv;
    unfold populate.
  - rewrite Hst, Href, Hmodel. destruct (get entity refName); run; eauto.
  - rewrite Hpath, Hvo, Hmodel. destruct (get entity (localField vo)); run; eauto.
Qed.

Lemma getReferenceFilter_returns refName target entity f w :
  resolvesTo this refName target ->
  exists rf, getReferenceFilter this refName entity f w = (Ok (Some rf), w).
Proof.
  intros [(Hpath & _)|(Hpath & Hvirt & vo & Hvo & _)]%resolvesTo_inv;
    unfold getReferenceFilter; rewrite Hpath.
  - eauto.
  - rewrite Hvirt, Hvo. eauto.
Qed.

(** No read operation rejects a resolved relation, be it a direct
    reference or a virtual lookup: queryRelations, aggregateRelations and
    countRelations return a result, and findRelation returns one unless
    the assembler throws on what was populated. *)
Lemma reads_return RelationClass refName target dto findOpts query f agg w :
  resolvesTo this refName target ->
  (exists w',
     (exists r, findRelationOne this RelationClass refName dto findOpts w = (Ok r, w')) \/
     (exists p e, convertToDTO (entityAssembler RelationClass) p = Throw e /\
                  findRelationOne this RelationClass refName dto findOpts w
                  = (Throw e, w'))) /\
  (exists r w', queryRelationsOne this RelationClass refName dto query w = (Ok r, w')) /\
  (exists r w', aggregateRelationsOne this RelationClass refName dto f agg w = (Ok r, w')) /\
  (exists r w', countRelationsOne this RelationClass refName dto f w = (Ok r, w')).
Proof.
  intros Hres. pose proof (resolvesTo_declared _ _ Hres) as Hdecl.
  repeat split.
  - unfold findRelationOne, findById.
    rewrite run_bind, checkForReference_declared by done. run.
    destruct (lookupDoc _ _) as [foundEntity|]; [|run; eauto].
    rewrite run_bind, Hres. unfold useModel. run.
    edestruct populate_returns as (p & w' & ->); [done|].
    destruct (convertToDTO (entityAssembler RelationClass) p) as [c|e] eqn:Hconv;
      run; eauto 7.
  - unfold queryRelationsOne, findById.
    rewrite run_bind, checkForReference_declared by done. run.
    destruct (lookupDoc _ _) as [foundEntity|]; [|run; eauto].
    destruct (buildQuery _) as [filterQuery options].
    by eapply populate_returns.
  - unfold aggregateRelationsOne.
    rewrite run_bind, checkForReference_declared by done.
    rewrite run_bind, Hres. run.
    edestruct getReferenceFilter_returns as (rf & ->); [done|].
    unfold useModel, aggregate. cbn [buildAggregateQuery]. run. eauto.
  - unfold countRelationsOne.
    rewrite run_bind, checkForReference_declared by done.
    rewrite run_bind, Hres. run.
    edestruct getReferenceFilter_returns as (rf & ->); [done|].
    unfold useModel, count. run. eauto.
Qed.

End Kinds.

(** C5. On a virtual-lookup relation (a virtual path that is not a path of
    the schema) each mutation throws "<operation> not supported for virtual
    relation ...", whatever the ids and the store, and leaves the world as
    it was. The check of the read operations lets every declared relation
    through, direct or virtual, and on a relation that resolves to a model,
    of either kind, no read operation rejects the relation:
    queryRelations, aggregateRelations and countRelations return a result,
    and findRelation returns one unless the assembler throws when it
    converts what was populated. *)
Theorem virtual_relation_rejected_by_mutations_only
    (this : Service) (RelationClass : Class) (relationName id relationId : string)
    (relationIds : list string) (opts : option ModifyRelationOptions) (w : World) :
  isReferencePath this relationName = false ->
  isVirtualPath this relationName = true ->
  (addRelations this relationName id relationIds opts w
   = (Throw (notSupported "AddRelations" relationName), w) /\
   setRelation this relationName id relationId opts w
   = (Throw (notSupported "SetRelation" relationName), w) /\
   removeRelation this relationName id relationId opts w
   = (Throw (notSupported "RemoveRelation" relationName), w) /\
   removeRelations this relationName id relationIds opts w
   = (Throw (notSupported "RemoveRelations" relationName), w)) /\
  (forall operation refName w',
     isReferencePath this refName = true \/ isVirtualPath this refName = true ->
     checkForReference this operation refName true w' = (Ok tt, w')) /\
  (forall refName target dto findOpts query f agg w',
     resolvesTo this refName target ->
     (exists w'',
        (exists r, findRelationOne this RelationClass refName dto findOpts w'
                   = (Ok r, w'')) \/
        (exists p e, convertToDTO (entityAssembler RelationClass) p = Throw e /\
                     findRelationOne this RelationClass refName dto findOpts w'
                     = (Throw e, w''))) /\
     (exists r w'', queryRelationsOne this RelationClass refName dto query w' = (Ok r, w'')) /\
     (exists r w'', aggregateRelationsOne this RelationClass refName dto f agg w' = (Ok r, w'')) /\
     (exists r w'', countRelationsOne this RelationClass refName dto f w' = (Ok r, w''))).
Proof.
  intros Hpath Hvirt. split; [|split].
  - repeat split; apply run_bind_throw;
      by apply checkForReference_virtual_denied.
  - intros. by apply checkForReference_declared.
  - intros. by eapply reads_return.
Qed.

Lemma virtual_relation_rejected_by_mutations_only_witness :
  removeRelations Blog.posts "comments" "p1" ["c1"] None Blog.world0
  = (Throw (Error "RemoveRelations not supported for virtual relation comments"),
     Blog.world0) /\
  exists r w', countRelationsOne Blog.posts Blog.relation "comments" Blog.p1 FEmpty
                 Blog.world0 = (Ok r, w').
Proof.
  pose proof (virtual_relation_rejected_by_mutations_only Blog.posts Blog.relation
                "comments" "p1" "c1" ["c1"] None Blog.world0 eq_refl eq_refl)
    as (Hmut & _ & Hread).
  split.
  - apply Hmut.
  - refine (proj2 (proj2 (proj2 (Hread "comments" "Comment" Blog.p1 None
                                   (mkQuery None None []) FEmpty Blog.countAll
                                   Blog.world0 _)))).
    intros w. reflexivity.
Defined.

(** ** Documents of a collection *)

Lemma docs_ids (c : Collection) : _id <$> docs c = (map_to_list c).*1.
Proof.
  unfold docs. rewrite <- list_fmap_compose. apply list_fmap_ext.
  by intros i [k v] _.
Qed.

Lemma elem_of_docs (c : Collection) (d : Doc) :
  d ∈ docs c <-> c !! _id d = Some (fields d).
Proof.
  unfold docs. rewrite list_elem_of_fmap. split.
  - intros ([k v] & -> & Hin). by apply elem_of_map_to_list in Hin.
  - intros Hlook. exists (_id d, fields d). split; [by destruct d|].
    by apply elem_of_map_to_list.
Qed.

Lemma elem_of_docs_lookupDoc (c : Collection) (d : Doc) :
  d ∈ docs c <-> lookupDoc c (_id d) = Some d.
Proof.
  rewrite elem_of_docs. unfold lookupDoc. destruct d as [i fs]. cbn.
  destruct (c !! i) as [fs'|]; cbn; [|done].
  split; intros H; by simplify_eq.
Qed.

Lemma NoDup_fmap_filter {X Y} (g : X -> Y) (P : X -> Prop)
    `{!forall x, Decision (P x)} (l : list X) :
  NoDup (g <$> l) -> NoDup (g <$> filter P l).
Proof.
  induction l as [|x l IH]; [done|].
  rewrite fmap_cons, NoDup_cons. intros [Hx Hl].
  rewrite filter_cons. destruct (decide (P x)); [|by apply IH].
  rewrite fmap_cons, NoDup_cons. split; [|by apply IH].
  intros Hin. apply Hx.
  destruct (list_elem_of_fmap_1 _ _ _ Hin) as (y & Heq & Hy).
  apply list_elem_of_filter in Hy as [_ Hy]. rewrite Heq.
  by apply (list_elem_of_fmap_2 g).
Qed.

Lemma NoDup_matching_ids q (c : Collection) : NoDup (_id <$> matching q c).
Proof.
  unfold matching. apply NoDup_fmap_filter.
  rewrite docs_ids. apply NoDup_fst_map_to_list.
Qed.

Lemma elem_of_matching q (c : Collection) (d : Doc) :
  d ∈ matching q c <-> matches q d = true /\ lookupDoc c (_id d) = Some d.
Proof.
  unfold matching. by rewrite list_elem_of_filter, elem_of_docs_lookupDoc.
Qed.

Lemma matches_ids ids f d :
  matches (buildIdFilterQuery (VArray ids) f) d = true -> _id d ∈ ids.
Proof.
  unfold matches. cbn. intros [H _]%andb_prop. by apply bool_decide_eq_true in H.
Qed.

(** The verification counts at most one document per distinct id; when it
    counts as many documents as there are ids in the list, the ids are
    pairwise distinct and each one has its document among the counted. *)
Lemma verified_complete target relationIds opts w :
  length (verified target relationIds opts w) = length relationIds ->
  NoDup relationIds /\
  forall id, id ∈ relationIds ->
    exists d, d ∈ verified target relationIds opts w /\ _id d = id.
Proof.
  intros Hlen. unfold verified in *.
  set (found := matching _ _) in *.
  assert (_id <$> found ≡ₚ relationIds) as Hperm.
  { apply submseteq_length_Permutation.
    - apply NoDup_submseteq; [apply NoDup_matching_ids|].
      intros id Hin. destruct (list_elem_of_fmap_1 _ _ _ Hin) as (d & -> & Hd).
      apply elem_of_matching in Hd as [Hd _]. by apply matches_ids in Hd.
    - rewrite length_fmap. lia. }
  split.
  - rewrite <- Hperm. apply NoDup_matching_ids.
  - intros id Hid. rewrite <- Hperm in Hid.
    destruct (list_elem_of_fmap_1 _ _ _ Hid) as (d & -> & Hd). eauto.
Qed.

(** C10. For a direct-reference relation whose target model resolves: a
    list of relation ids in which some id occurs twice makes addRelations
    and removeRelations throw "Unable to find all ...", whatever the store
    holds (so also when every id of the list has its document): the count
    has one document per distinct id and is compared with the length of
    the list. Only the count request is sent, the store is unchanged. *)
Theorem duplicate_ids_fail_verification
    (this : Service) (relationName target id : string)
    (relationIds : list string) (opts : option ModifyRelationOptions) (w : World) :
  isReferencePath this relationName = true ->
  resolvesTo this relationName target ->
  ~ NoDup relationIds ->
  addRelations this relationName id relationIds opts w
  = (Throw (Error ("Unable to find all " +:+ relationName +:+ " to add to "
                     +:+ modelName (Model this))),
     sent w [verification target relationIds opts]) /\
  removeRelations this relationName id relationIds opts w
  = (Throw (Error ("Unable to find all " +:+ relationName +:+ " to remove from "
                     +:+ modelName (Model this))),
     sent w [verification target relationIds opts]).
Proof.
  intros Hpath Hres Hdup.
  assert (length (verified target relationIds opts w) ≠ length relationIds) as Hcount.
  { intros Hlen. by apply verified_complete in Hlen as [? _]. }
  split.
  - by apply addRelations_mismatch.
  - by apply removeRelations_mismatch.
Qed.

Lemma duplicate_ids_fail_verification_witness :
  (lookupDoc (collection Blog.store0 "Tag") "t1" = Some (mkDoc "t1" ∅)) /\
  addRelations Blog.posts "tags" "p1" ["t1"; "t1"] None Blog.world0
  = (Throw (Error "Unable to find all tags to add to Post"),
     sent Blog.world0 [verification "Tag" ["t1"; "t1"] None]).
Proof.
  split; [reflexivity|].
  refine (proj1 (duplicate_ids_fail_verification Blog.posts "tags" "Tag" "p1"
                   ["t1"; "t1"] None Blog.world0 eq_refl _ _)).
  - intros w. reflexivity.
  - apply (bool_decide_unpack _). vm_compute. exact I.
Defined.

(** ** The frame of the mutations *)

Section Frame.

Variable this : Service.
Variable id : string.

Lemma preserves_refl s : preserves this id s s.
Proof. by split. Qed.

Lemma preserves_trans s1 s2 s3 :
  preserves this id s1 s2 -> preserves this id s2 s3 -> preserves this id s1 s3.
Proof.
  intros [H1 H1'] [H2 H2']. split; intros.
  - by rewrite H2, H1.
  - by rewrite H2', H1'.
Qed.

Lemma frames_ret {A} (a : A) : frames this id (mret a).
Proof.
  intros w. run. cbn. split; [apply preserves_refl|].
  exists []. by rewrite app_nil_r.
Qed.

Lemma frames_throw {A} e : frames this id (@throw A e).
Proof.
  intros w. run. cbn. split; [apply preserves_refl|].
  exists []. by rewrite app_nil_r.
Qed.

Lemma frames_bind {A B} (m : M A) (f : A -> M B) :
  frames this id m -> (forall a, frames this id (f a)) -> frames this id (m ≫= f).
Proof.
  intros Hm Hf w. rewrite run_bind.
  destruct (Hm w) as (Hpres & evs & Htrace & Hall).
  destruct (m w) as [[a|e] w1]; cbn [snd] in *.
  - destruct (Hf a w1) as (Hpres' & evs' & Htrace' & Hall').
    split; [by eapply preserves_trans|].
    exists (evs ++ evs'). split; [|by apply Forall_app].
    by rewrite Htrace', Htrace, (assoc_L (++)).
  - split; [done|]. by exists evs.
Qed.

Lemma frames_reads {A} P (m : M A) :
  (forall e, P e -> allowedRequest this id e) -> reads P m -> frames this id m.
Proof.
  intros HP Hm w. destruct (Hm (store w)) as (r & evs & Hall & Hrun).
  destruct w as [s tr]. cbn [store trace] in *. rewrite Hrun. cbn.
  split; [apply preserves_refl|].
  exists evs. split; [done|]. eapply Forall_impl; eauto.
Qed.

Lemma matches_id i f d :
  matches (buildIdFilterQuery (VScalar i) f) d = true -> _id d = i.
Proof.
  unfold matches. cbn. intros [H _]%andb_prop. by apply bool_decide_eq_true in H.
Qed.

Lemma frames_findOneAndUpdate f u :
  frames this id
    (findOneAndUpdate (Model this) (buildIdFilterQuery (VScalar id) f) u).
Proof.
  intros w. unfold findOneAndUpdate.
  destruct (castUpdate (schema (Model this)) u) as [u'|e].
  2:{ run. cbn. split; [apply preserves_refl|]. exists []. by rewrite app_nil_r. }
  run.
  assert (Forall (allowedRequest this id)
            [EvFindOneAndUpdate (modelName (Model this))
               (buildIdFilterQuery (VScalar id) f) u']) as Hall.
  { by repeat constructor. }
  destruct (head _) as [d|] eqn:Hhead; [|run; cbn; split; [apply preserves_refl|eauto]].
  apply head_Some_elem_of, elem_of_matching in Hhead as [Hd%matches_id _].
  destruct (applyUpdate u' (fields d)) as [fs|];
    [|run; cbn; split; [apply preserves_refl|eauto]].
  run. cbn. split; [|eauto]. rewrite Hd. split.
  - intros model Hne. by rewrite lookup_insert_ne.
  - intros id' Hne. unfold collection at 1. rewrite lookup_insert_eq. cbn.
    by rewrite lookup_insert_ne.
Qed.

Lemma frames_findAndUpdate f u : frames this id (findAndUpdate this id f u).
Proof.
  unfold findAndUpdate. apply frames_bind; [apply frames_findOneAndUpdate|].
  intros [e|]; [apply frames_ret|apply frames_throw].
Qed.

Lemma frames_checkForReference operation refName allowVirtual :
  frames this id (checkForReference this operation refName allowVirtual).
Proof.
  apply (frames_reads isCount); [by intros ? (? & ? & ->)|].
  apply reads_checkForReference.
Qed.

Lemma frames_getRefCount relationName relationIds f :
  frames this id (getRefCount this relationName relationIds f).
Proof.
  apply (frames_reads isCount); [by intros ? (? & ? & ->)|].
  unfold getRefCount.
  repeat first [ apply reads_getReferenceModel | apply reads_useModel
               | apply reads_count | reads_step ].
  red; eauto.
Qed.

Lemma frames_getById : frames this id (getById this id).
Proof.
  apply (frames_reads (fun e => e = EvFindById (modelName (Model this)) id));
    [by intros ? ->|].
  unfold getById.
  repeat first [ apply reads_findById | reads_step ]. done.
Qed.

End Frame.

(** C9. Each mutation leaves every collection other than the primary one
    as it was, and in the primary collection every document other than the
    entity [id]; the requests it sends are counts (the verification of the
    relation targets), the update of the entity selected by its id in the
    primary collection, and the reload of that entity. *)
Theorem mutations_write_only_the_entity
    (this : Service) (relationName id relationId : string)
    (relationIds : list string) (opts : option ModifyRelationOptions) :
  frames this id (addRelations this relationName id relationIds opts) /\
  frames this id (setRelation this relationName id relationId opts) /\
  frames this id (removeRelation this relationName id relationId opts) /\
  frames this id (removeRelations this relationName id relationIds opts).
Proof.
  split; [|split; [|split]].
  - unfold addRelations.
    apply frames_bind; [apply frames_checkForReference|intros _].
    apply frames_bind; [apply frames_getRefCount|intros refCount].
    destruct (decide _); [apply frames_throw|apply frames_findAndUpdate].
  - unfold setRelation.
    apply frames_bind; [apply frames_checkForReference|intros _].
    apply frames_bind; [apply frames_getRefCount|intros refCount].
    destruct (decide _); [apply frames_throw|apply frames_findAndUpdate].
  - unfold removeRelation.
    apply frames_bind; [apply frames_checkForReference|intros _].
    apply frames_bind; [apply frames_getRefCount|intros refCount].
    destruct (decide _); [apply frames_throw|].
    apply frames_bind; [apply frames_findAndUpdate|intros _; apply frames_getById].
  - unfold removeRelations.
    apply frames_bind; [apply frames_checkForReference|intros _].
    apply frames_bind; [apply frames_getRefCount|intros refCount].
    destruct (decide _); [apply frames_throw|].
    destruct (isVirtualPath _ _); [apply frames_throw|].
    apply frames_bind; [apply frames_findAndUpdate|intros _; apply frames_getById].
Qed.

(** ** Counting and aggregating over a direct reference *)

Section DirectReference.

Variable this : Service.

Lemma countRelationsOne_direct RelationClass refName target dto f w :
  isReferencePath this refName = true ->
  resolvesTo this refName target ->
  countRelationsOne this RelationClass refName dto f w
  = (Ok (length (matching (referenceQuery RelationClass refName dto f)
                   (collection (store w) target))),
     sent w [EvCount target (referenceQuery RelationClass refName dto f)]).
Proof.
  intros Hpath Hres. unfold countRelationsOne.
  rewrite run_bind, checkForReference_reference by done.
  rewrite run_bind, Hres. unfold getReferenceFilter. rewrite Hpath.
  unfold useModel, count. run. reflexivity.
Qed.

Lemma aggregateRelationsOne_direct RelationClass refName target dto f agg w :
  isReferencePath this refName = true ->
  resolvesTo this refName target ->
  aggregateRelationsOne this RelationClass refName dto f agg w
  = (Ok (match matching (referenceQuery RelationClass refName dto f)
                 (collection (store w) target) with
         | [] => ∅
         | ds => convertToAggregateResponse this
                   (accumulate this
                      (convertAggregateQuery (documentAssembler RelationClass) agg) ds)
         end),
     sent w [EvAggregate target (referenceQuery RelationClass refName dto f)
               (convertAggregateQuery (documentAssembler RelationClass) agg)]).
Proof.
  intros Hpath Hres. unfold aggregateRelationsOne.
  rewrite run_bind, checkForReference_reference by done.
  rewrite run_bind, Hres. unfold getReferenceFilter. rewrite Hpath.
  unfold useModel, aggregate. cbn [buildAggregateQuery]. run.
  fold (referenceQuery RelationClass refName dto f).
  by destruct (matching _ _).
Qed.

Lemma filterHolds_mergeFilter a b d :
  filterHolds (mergeFilter a b) d = filterHolds a d && filterHolds b d.
Proof.
  destruct a, b; cbn [mergeFilter filterHolds];
    rewrite ?andb_true_r, ?andb_true_l; try reflexivity; apply andb_comm.
Qed.

Lemma matching_nil q (c : Collection) :
  (forall d, matches q d = false) -> matching q c = [].
Proof.
  intros Hnone. unfold matching. induction (docs c) as [|d l IH]; [done|].
  rewrite filter_cons, decide_False; [done|]. by rewrite Hnone.
Qed.

Lemma referenceQuery_empty RelationClass refName dto f (c : Collection) :
  get dto refName = VUndefined \/ get dto refName = VArray [] ->
  matching (referenceQuery RelationClass refName dto f) c = [].
Proof.
  intros Hkey. apply matching_nil. intros d.
  unfold referenceQuery, matches, getObjectIdReferenceFilter. cbn.
  rewrite filterHolds_mergeFilter.
  destruct Hkey as [-> | ->]; cbn; by rewrite andb_false_r.
Qed.

End DirectReference.

(** C3, as the code has it. For a direct-reference relation whose target
    model resolves and an entity whose foreign-key value is absent or the
    empty array, countRelations returns 0 and aggregateRelations returns
    the empty response after one request to the target collection: the
    count, or the aggregation, under the reference filter built from that
    value, which no document matches. *)
Theorem empty_key_is_answered_by_the_store
    (this : Service) (RelationClass : Class) (relationName target : string)
    (dto : Doc) (f : Filter) (agg : AggregateQuery) (w : World) :
  isReferencePath this relationName = true ->
  resolvesTo this relationName target ->
  get dto relationName = VUndefined \/ get dto relationName = VArray [] ->
  countRelationsOne this RelationClass relationName dto f w
  = (Ok 0, sent w [EvCount target (referenceQuery RelationClass relationName dto f)]) /\
  aggregateRelationsOne this RelationClass relationName dto f agg w
  = (Ok ∅,
     sent w [EvAggregate target (referenceQuery RelationClass relationName dto f)
               (convertAggregateQuery (documentAssembler RelationClass) agg)]).
Proof.
  intros Hpath Hres Hkey. split.
  - rewrite (countRelationsOne_direct _ _ _ target) by done.
    by rewrite referenceQuery_empty.
  - rewrite (aggregateRelationsOne_direct _ _ _ target) by done.
    by rewrite referenceQuery_empty.
Qed.

Lemma empty_key_is_answered_by_the_store_witness :
  countRelationsOne Blog.posts Blog.relation "tags" Blog.p1 FEmpty Blog.world0
  = (Ok 0, sent Blog.world0 [EvCount "Tag" (mkFQ None (FCmp "_id" (CmpIn [])))]).
Proof.
  refine (proj1 (empty_key_is_answered_by_the_store Blog.posts Blog.relation "tags"
                   "Tag" Blog.p1 FEmpty Blog.countAll Blog.world0 eq_refl _
                   (or_intror eq_refl))).
  intros w. reflexivity.
Defined.

(** The claim C3 fails on the post without tags: its foreign key is the
    empty array, and both operations send a request to the [Tag]
    collection, so neither leaves the trace as it was. *)
Lemma empty_key_still_queries_target :
  get Blog.p1 "tags" = VArray [] /\
  trace (snd (countRelationsOne Blog.posts Blog.relation "tags" Blog.p1 FEmpty
                Blog.world0))
  = [EvCount "Tag" (mkFQ None (FCmp "_id" (CmpIn [])))] /\
  trace (snd (aggregateRelationsOne Blog.posts Blog.relation "tags" Blog.p1 FEmpty
                Blog.countAll Blog.world0))
  = [EvAggregate "Tag" (mkFQ None (FCmp "_id" (CmpIn []))) Blog.countAll] /\
  ~ (countRelationsOne Blog.posts Blog.relation "tags" Blog.p1 FEmpty Blog.world0
     = (Ok 0, Blog.world0) /\
     aggregateRelationsOne Blog.posts Blog.relation "tags" Blog.p1 FEmpty
       Blog.countAll Blog.world0
     = (Ok ∅, Blog.world0)).
Proof.
  split; [reflexivity|]. split; [reflexivity|]. split; [reflexivity|].
  intros [Hcount _].
  apply (f_equal (fun r => length (trace (snd r)))) in Hcount.
  vm_compute in Hcount. discriminate.
Qed.

(** ** Reads of an entity that is gone *)

Section ReferenceFilterOfAnEntity.

Variable this : Service.

(** On a resolved relation the reference filter is built from the entity
    passed in: on [_id] from the value of the relation field for a direct
    reference, on the foreign field from the value of the local field for
    a virtual lookup. *)
Lemma getReferenceFilter_resolved refName target entity f :
  resolvesTo this refName target ->
  exists rf,
    (isReferencePath this refName = true /\
     rf = getObjectIdReferenceFilter refName entity f \/
     isReferencePath this refName = false /\
     exists vo,
       isVirtualTypeWithReferenceOptions (virtualpath (schema (Model this)) refName)
       = Some vo /\
       rf = getVirtualReferenceFilter vo entity f) /\
    forall w, getReferenceFilter this refName entity f w = (Ok (Some rf), w).
Proof.
  intros [(Hpath & _)|(Hpath & Hvirt & vo & Hvo & _)]%resolvesTo_inv.
  - eexists. split; [left; split; [done|reflexivity]|].
    intros w. unfold getReferenceFilter. by rewrite Hpath.
  - eexists. split; [right; split; [done|]; exists vo; split; [done|reflexivity]|].
    intros w. unfold getReferenceFilter. by rewrite Hpath, Hvirt, Hvo.
Qed.

Lemma count_and_aggregate_run RelationClass refName target dto f agg rf w :
  resolvesTo this refName target ->
  (forall w0,
     getReferenceFilter this refName dto
       (qFilter (convertQuery (documentAssembler RelationClass)
                   (mkQuery (Some f) None []))) w0
     = (Ok (Some rf), w0)) ->
  let related := matching (buildFilterQuery (Some rf)) (collection (store w) target) in
  countRelationsOne this RelationClass refName dto f w
  = (Ok (length related), sent w [EvCount target (buildFilterQuery (Some rf))]) /\
  aggregateRelationsOne this RelationClass refName dto f agg w
  = (Ok (match related with
         | [] => ∅
         | ds => convertToAggregateResponse this
                   (accumulate this
                      (convertAggregateQuery (documentAssembler RelationClass) agg) ds)
         end),
     sent w [EvAggregate target (buildFilterQuery (Some rf))
               (convertAggregateQuery (documentAssembler RelationClass) agg)]).
Proof.
  intros Hres Hfilter related.
  pose proof (resolvesTo_declared _ _ _ Hres) as Hdecl. split.
  - unfold countRelationsOne.
    rewrite run_bind, checkForReference_declared by done.
    rewrite run_bind, Hres, run_bind, Hfilter.
    unfold useModel, count. by run.
  - unfold aggregateRelationsOne.
    rewrite run_bind, checkForReference_declared by done.
    rewrite run_bind, Hres, run_bind, Hfilter.
    unfold useModel, aggregate. cbn [buildAggregateQuery]. run.
    fold related. by destruct related.
Qed.

End ReferenceFilterOfAnEntity.

(** C4, as the code has it. For a declared relation and an entity whose
    id is no longer in the primary collection, findRelation and
    queryRelations re-fetch it by id, find nothing, and return the absent
    document and the empty list. aggregateRelations and countRelations do
    not re-fetch: whatever the store, the only requests they send are the
    aggregation and the count, and on a relation that resolves to a target
    model each sends exactly one request to that model, under the
    reference filter built from the fields of the entity passed in (on
    [_id] for a direct reference, on the foreign field for a virtual
    lookup); countRelations returns the number of target documents that
    match it, and aggregateRelations the empty response when none does and
    otherwise the conversion of the row accumulated over those that do. *)
Theorem reads_of_a_deleted_entity
    (this : Service) (RelationClass : Class) (relationName : string)
    (dto : Doc) (findOpts : option FindRelationOptions) (query : Query)
    (f : Filter) (agg : AggregateQuery) (w : World) :
  isReferencePath this relationName = true \/ isVirtualPath this relationName = true ->
  lookupDoc (collection (store w) (modelName (Model this))) (_id dto) = None ->
  let refetch := EvFindById (modelName (Model this)) (_id dto) in
  let converted :=
    qFilter (convertQuery (documentAssembler RelationClass) (mkQuery (Some f) None [])) in
  let aggregation := convertAggregateQuery (documentAssembler RelationClass) agg in
  findRelationOne this RelationClass relationName dto findOpts w
  = (Ok None, sent w [refetch]) /\
  queryRelationsOne this RelationClass relationName dto query w
  = (Ok (PopDocs []), sent w [refetch]) /\
  reads isAggregate (aggregateRelationsOne this RelationClass relationName dto f agg) /\
  reads isCount (countRelationsOne this RelationClass relationName dto f) /\
  (forall target,
     resolvesTo this relationName target ->
     exists rf,
       (isReferencePath this relationName = true /\
        rf = getObjectIdReferenceFilter relationName dto converted \/
        isReferencePath this relationName = false /\
        exists vo,
          isVirtualTypeWithReferenceOptions
            (virtualpath (schema (Model this)) relationName) = Some vo /\
          rf = getVirtualReferenceFilter vo dto converted) /\
       let related :=
         matching (buildFilterQuery (Some rf)) (collection (store w) target) in
       countRelationsOne this RelationClass relationName dto f w
       = (Ok (length related), sent w [EvCount target (buildFilterQuery (Some rf))]) /\
       aggregateRelationsOne this RelationClass relationName dto f agg w
       = (Ok (match related with
              | [] => ∅
              | ds => convertToAggregateResponse this (accumulate this aggregation ds)
              end),
          sent w [EvAggregate target (buildFilterQuery (Some rf)) aggregation])).
Proof.
  intros Hdecl Hgone refetch converted aggregation.
  split; [|split; [|split; [|split]]].
  - unfold findRelationOne, findById.
    rewrite run_bind, checkForReference_declared by done. run.
    by rewrite Hgone.
  - unfold queryRelationsOne, findById.
    rewrite run_bind, checkForReference_declared by done. run.
    by rewrite Hgone.
  - apply reads_aggregateRelationsOne.
  - apply reads_countRelationsOne.
  - intros target Hres.
    destruct (getReferenceFilter_resolved this relationName target dto converted Hres)
      as (rf & Hkind & Hfilter).
    exists rf. split; [exact Hkind|].
    by apply count_and_aggregate_run.
Qed.

Lemma reads_of_a_deleted_entity_witness :
  findRelationOne Blog.posts Blog.relation "tags" Blog.p9 None Blog.world0
  = (Ok None, sent Blog.world0 [EvFindById "Post" "p9"]) /\
  queryRelationsOne Blog.posts Blog.relation "tags" Blog.p9 (mkQuery None None [])
    Blog.world0
  = (Ok (PopDocs []), sent Blog.world0 [EvFindById "Post" "p9"]).
Proof.
  pose proof (reads_of_a_deleted_entity Blog.posts Blog.relation "tags" Blog.p9
                None (mkQuery None None []) FEmpty Blog.countAll Blog.world0
                (or_introl eq_refl) eq_refl) as (Hfind & Hquery & _).
  exact (conj Hfind Hquery).
Defined.

(** The claim C4 fails on the stale copy of the post [p9]: the post is
    not in the primary collection, yet countRelations returns 1 and
    aggregateRelations a non-empty response, and neither has sent a
    request to the primary collection. *)
Lemma deleted_entity_is_still_counted :
  lookupDoc (collection Blog.store0 "Post") (_id Blog.p9) = None /\
  countRelationsOne Blog.posts Blog.relation "tags" Blog.p9 FEmpty Blog.world0
  = (Ok 1, sent Blog.world0 [EvCount "Tag" (mkFQ None (FCmp "_id" (CmpIn ["t1"])))]) /\
  aggregateRelationsOne Blog.posts Blog.relation "tags" Blog.p9 FEmpty Blog.countAll
    Blog.world0
  = (Ok {["count" := {["_id" := VScalar "1"]}]},
     sent Blog.world0 [EvAggregate "Tag" (mkFQ None (FCmp "_id" (CmpIn ["t1"])))
                         Blog.countAll]) /\
  ~ (fst (countRelationsOne Blog.posts Blog.relation "tags" Blog.p9 FEmpty Blog.world0)
     = Ok 0 /\
     fst (aggregateRelationsOne Blog.posts Blog.relation "tags" Blog.p9 FEmpty
            Blog.countAll Blog.world0)
     = Ok ∅).
Proof.
  split; [reflexivity|]. split; [by vm_compute|]. split; [by vm_compute|].
  intros [Hcount _]. vm_compute in Hcount. discriminate.
Qed.

(** ** Adding relations, then querying them *)

Section RoundTrip.

Variable this : Service.

Lemma findAndUpdate_ok id f u w e w1 :
  findAndUpdate this id f u w = (Ok e, w1) ->
  exists d fs u',
    castUpdate (schema (Model this)) u = Ok u' /\
    d ∈ matching (buildIdFilterQuery (VScalar id) f)
          (collection (store w) (modelName (Model this))) /\
    _id d = id /\
    applyUpdate u' (fields d) = Some fs /\
    e = mkDoc id fs /\
    store w1 = <[modelName (Model this) :=
                   <[id := fs]> (collection (store w) (modelName (Model this)))]>
                 (store w).
Proof.
  unfold findAndUpdate, findOneAndUpdate.
  destruct (castUpdate (schema (Model this)) u) as [u'|err]; [|run; done].
  run.
  destruct (head _) as [d|] eqn:Hhead; [|run; done].
  apply head_Some_elem_of in Hhead.
  pose proof Hhead as [Hid%matches_id _]%elem_of_matching.
  destruct (applyUpdate u' (fields d)) as [fs|] eqn:Hupd; [|run; done].
  run. intros [= <- <-]. exists d, fs, u'. rewrite Hid. by cbn.
Qed.

Lemma castUpdate_push_ok relationName relationIds u' :
  castUpdate (schema (Model this)) (UPush relationName relationIds) = Ok u' ->
  u' = UPush relationName relationIds.
Proof.
  unfold castUpdate. destruct (path _ _) as [st|]; [|by intros [= <-]].
  destruct (isArrayPath st); [by intros [= <-]|done].
Qed.

Lemma addRelations_ok relationName target id relationIds opts w e w1 :
  isReferencePath this relationName = true ->
  resolvesTo this relationName target ->
  addRelations this relationName id relationIds opts w = (Ok e, w1) ->
  length (verified target relationIds opts w) = length relationIds /\
  findAndUpdate this id (opts ≫= modFilter) (UPush relationName relationIds)
    (sent w [verification target relationIds opts]) = (Ok e, w1).
Proof.
  intros Hpath Hres Hadd.
  destruct (decide (length (verified target relationIds opts w) = length relationIds))
    as [Hlen|Hlen].
  - split; [done|]. by rewrite <- (addRelations_verified _ _ target).
  - by rewrite (addRelations_mismatch _ _ target) in Hadd.
Qed.

Lemma applyUpdate_push relationName relationIds fs fs' :
  applyUpdate (UPush relationName relationIds) fs = Some fs' ->
  relationName ≠ "_id" /\
  exists old, fs' = <[relationName := VArray (old ++ relationIds)]> fs.
Proof.
  unfold applyUpdate. cbn [updatedField].
  destruct (decide (relationName = "_id")); [done|]. intros Hupd. split; [done|].
  destruct (default VUndefined (fs !! relationName)) as [| |old];
    [|done|]; injection Hupd as <-; [by exists []|by exists old].
Qed.

Lemma applyOptions_unpaged sort l d :
  d ∈ applyOptions (mkOpts None None sort) l <-> d ∈ l.
Proof.
  unfold applyOptions, sortDocs. cbn. destruct sort; [done|].
  by rewrite merge_sort_Permutation.
Qed.

End RoundTrip.

Lemma lookupDoc_after_update (s : Store) (primary target id k : string)
    (fs : gmap string Value) :
  is_Some (lookupDoc (collection s primary) id) ->
  is_Some (lookupDoc (collection s target) k) ->
  is_Some (lookupDoc
             (collection (<[primary := <[id := fs]> (collection s primary)]> s) target) k).
Proof.
  unfold lookupDoc. rewrite !fmap_is_Some. intros Hid Hk.
  destruct (decide (target = primary)) as [->|Hne].
  - unfold collection at 1. rewrite lookup_insert_eq. cbn.
    destruct (decide (k = id)) as [->|Hk'].
    + by rewrite lookup_insert_eq.
    + by rewrite lookup_insert_ne.
  - unfold collection at 1. rewrite lookup_insert_ne by done. exact Hk.
Qed.

(** C8. For a direct-reference relation: after addRelations has succeeded
    for the entity [id], queryRelations on that entity, with a query that
    carries no paging once converted by the assembler, returns a list of
    documents; every added id has its document in the target collection,
    and that document is in the list as soon as it satisfies the filter of
    the query. *)
Theorem added_relations_are_queried
    (this : Service) (RelationClass : Class) (relationName target id : string)
    (relationIds : list string) (opts : option ModifyRelationOptions)
    (dto : Doc) (query : Query) (e : Doc) (w w1 : World) :
  isReferencePath this relationName = true ->
  resolvesTo this relationName target ->
  addRelations this relationName id relationIds opts w = (Ok e, w1) ->
  _id dto = id ->
  qPaging (convertQuery (documentAssembler RelationClass) query) = None ->
  exists l w2,
    queryRelationsOne this RelationClass relationName dto query w1
    = (Ok (PopDocs l), w2) /\
    forall rid, rid ∈ relationIds ->
      exists d,
        lookupDoc (collection (store w1) target) rid = Some d /\
        (matches (buildFilterQuery
                    (qFilter (convertQuery (documentAssembler RelationClass) query))) d
         = true -> d ∈ l).
Proof.
  intros Hpath Hres Hadd Hid Hpaging.
  destruct (addRelations_ok _ _ _ _ _ _ _ _ _ Hpath Hres Hadd) as [Hlen Hupd].
  destruct (findAndUpdate_ok _ _ _ _ _ _ _ Hupd)
    as (d0 & fs & u' & Hcast & Hd0 & Hd0id & Happly & He & Hstore).
  cbn [sent store] in Hstore, Hd0.
  apply castUpdate_push_ok in Hcast. subst u'.
  destruct (applyUpdate_push _ _ _ _ Happly) as (Hne & old & Hfs).
  apply elem_of_matching in Hd0 as [_ Hd0]. rewrite Hd0id in Hd0.
  destruct (resolvesTo_inv _ _ _ Hres)
    as [(_ & st & ref & Hst & Href & Hmodel)|(Hpath' & _)]; [|congruence].
  assert (lookupDoc (collection (store w1) (modelName (Model this))) (_id dto)
          = Some (mkDoc id fs)) as Hfound.
  { rewrite Hid, Hstore. unfold lookupDoc, collection.
    rewrite lookup_insert_eq. cbn. by rewrite lookup_insert_eq. }
  assert (get (mkDoc id fs) relationName = VArray (old ++ relationIds)) as Hget.
  { unfold get. rewrite decide_False by done. cbn.
    by rewrite Hfs, lookup_insert_eq. }
  unfold queryRelationsOne, findById.
  rewrite run_bind, checkForReference_reference by done. run.
  rewrite Hfound. unfold buildQuery. rewrite Hpaging. cbn [mbind option_bind].
  unfold populate. rewrite Hst, Href, Hmodel, Hget. run.
  eexists _, _. split; [reflexivity|].
  intros rid Hrid.
  destruct (verified_complete _ _ _ _ Hlen) as [_ Hall].
  destruct (Hall rid Hrid) as (d & Hd & <-).
  apply elem_of_matching in Hd as [_ Hd].
  destruct (lookupDoc_after_update (store w) (modelName (Model this)) target id
              (_id d) fs) as [d' Hd']; [by rewrite Hd0|by rewrite Hd|].
  rewrite <- Hstore in Hd'. exists d'. split; [done|].
  intros Hmatch. apply applyOptions_unpaged, list_elem_of_filter.
  split; [done|]. apply list_elem_of_omap. exists (_id d).
  split; [|done]. apply elem_of_app. by right.
Qed.

Lemma added_relations_are_queried_witness :
  exists l w2,
    queryRelationsOne Blog.posts Blog.relation "tags" Blog.p1 (mkQuery None None [])
      (snd (addRelations Blog.posts "tags" "p1" ["t1"; "t2"] None Blog.world0))
    = (Ok (PopDocs l), w2) /\
    forall rid, rid ∈ ["t1"; "t2"] ->
      exists d,
        lookupDoc (collection
                     (store (snd (addRelations Blog.posts "tags" "p1" ["t1"; "t2"] None
                                    Blog.world0))) "Tag") rid = Some d /\
        (matches (buildFilterQuery None) d = true -> d ∈ l).
Proof.
  refine (added_relations_are_queried Blog.posts Blog.relation "tags" "Tag" "p1"
            ["t1"; "t2"] None Blog.p1 (mkQuery None None [])
            (mkDoc "p1" {["tags" := VArray ["t1"; "t2"]]}) Blog.world0
            (snd (addRelations Blog.posts "tags" "p1" ["t1"; "t2"] None Blog.world0))
            eq_refl _ _ eq_refl eq_refl).
  - intros w. reflexivity.
  - vm_compute. reflexivity.
Defined.


(** * Further properties of the service *)

(** ** Reads never write *)

Lemma reads_store {A} P (m : M A) (w : World) :
  reads P m -> exists evs, snd (m w) = sent w evs /\ Forall P evs.
Proof.
  intros Hm. destruct (Hm (store w)) as (r & evs & Hall & Hrun).
  exists evs. destruct w as [s tr]. cbn [store] in Hrun.
  by rewrite Hrun.
Qed.

Lemma reads_fmap {A B} P (g : A -> B) (m : M A) : reads P m -> reads P (g <$> m).
Proof. intros Hm. apply reads_bind; [done|]. intros a. apply reads_ret. Qed.

Lemma reads_batch {V} P (one : Doc -> M V) (es : list Entity)
    (acc : M (list (Entity * V))) :
  (forall d, reads P (one d)) ->
  reads P acc ->
  reads P (foldl (fun prev curr =>
                    map ← prev; ref ← one (doc curr); mret (mapSet curr ref map))
                 acc es).
Proof.
  intros Hone. revert acc. induction es as [|e es IH]; intros acc Hacc; [done|].
  cbn [foldl]. apply IH.
  apply reads_bind; [done|]. intros map.
  apply reads_bind; [done|]. intros ref. apply reads_ret.
Qed.

Section ReadsOfTheOperations.

Variable this : Service.

Lemma reads_findRelation RelationClass relationName dto opts :
  reads isQuery (findRelation this RelationClass relationName dto opts).
Proof.
  destruct dto as [dto|dtos]; apply reads_fmap.
  - apply reads_findRelationOne.
  - apply reads_bind; [apply reads_checkForReference|intros _].
    apply (reads_batch isQuery
             (fun d => findRelationOne this RelationClass relationName d opts));
      [intros; apply reads_findRelationOne|apply reads_ret].
Qed.

Lemma reads_queryRelations RelationClass relationName dto query :
  reads isQuery (queryRelations this RelationClass relationName dto query).
Proof.
  destruct dto as [dto|dtos]; apply reads_fmap.
  - apply reads_queryRelationsOne.
  - apply reads_bind; [apply reads_checkForReference|intros _].
    apply (reads_batch isQuery
             (fun d => queryRelationsOne this RelationClass relationName d query));
      [intros; apply reads_queryRelationsOne|apply reads_ret].
Qed.

Lemma reads_aggregateRelations RelationClass relationName dto f agg :
  reads isAggregate (aggregateRelations this RelationClass relationName dto f agg).
Proof.
  destruct dto as [dto|dtos]; apply reads_fmap.
  - apply reads_aggregateRelationsOne.
  - apply reads_bind; [apply reads_checkForReference|intros _].
    apply reads_bind; [apply reads_getReferenceModel|intros _].
    apply (reads_batch isAggregate
             (fun d => aggregateRelationsOne this RelationClass relationName d f agg));
      [intros; apply reads_aggregateRelationsOne|apply reads_ret].
Qed.

Lemma reads_countRelations RelationClass relationName dto f :
  reads isCount (countRelations this RelationClass relationName dto f).
Proof.
  destruct dto as [dto|dtos]; apply reads_fmap.
  - apply reads_countRelationsOne.
  - apply reads_bind; [apply reads_checkForReference|intros _].
    apply (reads_batch isCount
             (fun d => countRelationsOne this RelationClass relationName d f));
      [intros; apply reads_countRelationsOne|apply reads_ret].
Qed.

End ReadsOfTheOperations.

(** X1. The four read operations, on one entity as on an array, never
    change the store, whatever their arguments and whether they return or
    throw; the requests they add to the trace are reads: only counts for
    countRelations, only aggregations for aggregateRelations. *)
Theorem read_operations_never_write
    (this : Service) (RelationClass : Class) (relationName : string)
    (dto : Doc + list Entity) (findOpts : option FindRelationOptions)
    (query : Query) (f : Filter) (agg : AggregateQuery) (w : World) :
  (exists evs, snd (findRelation this RelationClass relationName dto findOpts w)
               = sent w evs /\ Forall isQuery evs) /\
  (exists evs, snd (queryRelations this RelationClass relationName dto query w)
               = sent w evs /\ Forall isQuery evs) /\
  (exists evs, snd (aggregateRelations this RelationClass relationName dto f agg w)
               = sent w evs /\ Forall isAggregate evs) /\
  (exists evs, snd (countRelations this RelationClass relationName dto f w)
               = sent w evs /\ Forall isCount evs).
Proof.
  repeat split.
  - apply reads_store, reads_findRelation.
  - apply reads_store, reads_queryRelations.
  - apply reads_store, reads_aggregateRelations.
  - apply reads_store, reads_countRelations.
Qed.

(** ** The update of the entity *)

Lemma singleton_of_NoDup_fmap {X Y} (g : X -> Y) (k : Y) (l : list X) (d : X) :
  NoDup (g <$> l) -> (forall x, x ∈ l -> g x = k) -> d ∈ l -> l = [d].
Proof.
  intros Hnodup Hall Hd. destruct l as [|a [|b l]].
  - by apply elem_of_nil in Hd.
  - apply elem_of_cons in Hd as [->|Hd]; [done|]. by apply elem_of_nil in Hd.
  - exfalso. rewrite !fmap_cons in Hnodup. apply NoDup_cons in Hnodup as [Hnotin _].
    apply Hnotin. rewrite (Hall a), <- (Hall b); [constructor| |].
    + right. left.
    + left.
Qed.

Lemma lookupDoc_id (c : Collection) id d : lookupDoc c id = Some d -> _id d = id.
Proof.
  unfold lookupDoc. destruct (c !! id); cbn; [|done]. by intros [= <-].
Qed.

Lemma lookupDoc_fields (c : Collection) id d :
  lookupDoc c id = Some d -> d = mkDoc id (fields d).
Proof.
  unfold lookupDoc. destruct (c !! id); cbn; [|done]. by intros [= <-].
Qed.

Lemma matching_by_id (c : Collection) id f d :
  lookupDoc c id = Some d ->
  filterHolds (default FEmpty f) d = true ->
  matching (buildIdFilterQuery (VScalar id) f) c = [d].
Proof.
  intros Hd Hf. pose proof (lookupDoc_id _ _ _ Hd) as Hid.
  apply (singleton_of_NoDup_fmap _id id).
  - apply NoDup_matching_ids.
  - intros x [Hx _]%elem_of_matching. by apply matches_id in Hx.
  - apply elem_of_matching. split; [|by rewrite Hid].
    unfold matches. cbn. rewrite Hf, andb_true_r. by apply bool_decide_eq_true.
Qed.

Section UpdateOfTheEntity.

Variable this : Service.

Lemma updated_sent id fs w evs evs' :
  updated this id fs (sent w evs) evs' = updated this id fs w (evs ++ evs').
Proof. unfold updated, sent. cbn [store trace]. by rewrite (assoc_L (++)). Qed.

Lemma sent_updated id fs w evs evs' :
  sent (updated this id fs w evs) evs' = updated this id fs w (evs ++ evs').
Proof. unfold updated, sent. cbn [store trace]. by rewrite (assoc_L (++)). Qed.

Lemma lookupDoc_updated id fs w evs :
  lookupDoc (collection (store (updated this id fs w evs)) (modelName (Model this))) id
  = Some (mkDoc id fs).
Proof.
  unfold updated, lookupDoc, collection. cbn [store].
  rewrite lookup_insert_eq. cbn. by rewrite lookup_insert_eq.
Qed.

Lemma findAndUpdate_found id opts u u' w d fs :
  castUpdate (schema (Model this)) u = Ok u' ->
  lookupDoc (collection (store w) (modelName (Model this))) id = Some d ->
  filterHolds (default FEmpty (opts ≫= modFilter)) d = true ->
  applyUpdate u' (fields d) = Some fs ->
  findAndUpdate this id (opts ≫= modFilter) u w
  = (Ok (mkDoc id fs), updated this id fs w [updateRequest this id opts u']).
Proof.
  intros Hcast Hd Hf Hupd. unfold findAndUpdate, findOneAndUpdate.
  rewrite Hcast. run.
  rewrite (matching_by_id _ _ _ d) by done. cbn [head].
  rewrite Hupd. run. by rewrite (lookupDoc_id _ _ _ Hd).
Qed.

Lemma findAndUpdate_throw id f u w e w' :
  findAndUpdate this id f u w = (Throw e, w') -> store w' = store w.
Proof.
  unfold findAndUpdate, findOneAndUpdate.
  destruct (castUpdate (schema (Model this)) u) as [u'|err]; [|run; by intros [= _ <-]].
  run.
  destruct (head _) as [d|]; [|run; by intros [= _ <-]].
  destruct (applyUpdate u' (fields d)); run; [done|by intros [= _ <-]].
Qed.

Lemma isArrayReference_path relationName :
  isArrayReference this relationName = true -> isReferencePath this relationName = true.
Proof.
  unfold isArrayReference, isReferencePath.
  destruct (path _ _); [intros _; by apply bool_decide_eq_true|done].
Qed.

Lemma castUpdate_set_value relationName relationId :
  isReferencePath this relationName = true ->
  castUpdate (schema (Model this)) (USet relationName (VScalar relationId))
  = Ok (USet relationName
          (if isArrayReference this relationName then VArray [relationId]
           else VScalar relationId)).
Proof.
  intros [st Hst]%isReferencePath_true. unfold castUpdate, isArrayReference.
  rewrite Hst. by destruct (isArrayPath st).
Qed.

Lemma getById_found id w d :
  lookupDoc (collection (store w) (modelName (Model this))) id = Some d ->
  getById this id w = (Ok d, sent w [EvFindById (modelName (Model this)) id]).
Proof. intros Hd. unfold getById, findById. run. by rewrite Hd. Qed.

Lemma applyUpdate_push_links relationName relationIds d old :
  relationName ≠ "_id" ->
  links (get d relationName) = Some old ->
  applyUpdate (UPush relationName relationIds) (fields d)
  = Some (<[relationName := VArray (old ++ relationIds)]> (fields d)).
Proof.
  intros Hne. unfold get, applyUpdate. cbn [updatedField].
  rewrite !decide_False by done.
  destruct (default VUndefined (fields d !! relationName)); cbn; by intros [= <-].
Qed.

Lemma applyUpdate_pull relationName relationIds d old :
  relationName ≠ "_id" ->
  get d relationName = VArray old ->
  applyUpdate (UPullAll relationName relationIds) (fields d)
  = Some (<[relationName := VArray (filter (fun x => x ∉ relationIds) old)]> (fields d)).
Proof.
  intros Hne. unfold get, applyUpdate. cbn [updatedField].
  rewrite !decide_False by done. by intros ->.
Qed.

End UpdateOfTheEntity.

(** X3. addRelations on an array of references, when every relation id
    has its target document and the entity [id] satisfies the caller's
    filter: the ids are appended to the array the field holds (a missing
    field counts as the empty array), also the ids the array already
    holds; the updated entity is returned, it is the only document
    written, and the two requests sent are the count and the update. On a
    path that is not an array the update is a cast error and nothing is
    sent after the count. *)
Theorem addRelations_appends
    (this : Service) (relationName target id : string) (relationIds old : list string)
    (opts : option ModifyRelationOptions) (d : Doc) (w : World) :
  isReferencePath this relationName = true ->
  resolvesTo this relationName target ->
  length (verified target relationIds opts w) = length relationIds ->
  (isArrayReference this relationName = false ->
   addRelations this relationName id relationIds opts w
   = (Throw (CastError ("Cast failed for value at path " +:+ relationName)),
      sent w [verification target relationIds opts])) /\
  (isArrayReference this relationName = true ->
   lookupDoc (collection (store w) (modelName (Model this))) id = Some d ->
   filterHolds (default FEmpty (opts ≫= modFilter)) d = true ->
   relationName ≠ "_id" ->
   links (get d relationName) = Some old ->
   let fs := <[relationName := VArray (old ++ relationIds)]> (fields d) in
   addRelations this relationName id relationIds opts w
   = (Ok (mkDoc id fs),
      updated this id fs w [verification target relationIds opts;
                            updateRequest this id opts (UPush relationName relationIds)])).
Proof.
  intros Hpath Hres Hlen. split.
  - intros Hsingle. rewrite (addRelations_verified _ _ target) by done.
    apply findAndUpdate_cast_error.
    destruct (isReferencePath_true _ _ Hpath) as [st Hst].
    unfold isArrayReference in Hsingle. unfold castUpdate.
    rewrite Hst in *. by rewrite Hsingle.
  - intros Harray Hd Hf Hne Hold fs.
    rewrite (addRelations_verified _ _ target) by done.
    rewrite (findAndUpdate_found _ _ _ _ (UPush relationName relationIds) _ d fs).
    + by rewrite updated_sent.
    + by apply castUpdate_push.
    + exact Hd.
    + exact Hf.
    + by apply applyUpdate_push_links.
Qed.

Lemma addRelations_appends_witness :
  addRelations Blog.posts "owner" "p1" ["u1"] None Blog.world1
  = (Throw (CastError "Cast failed for value at path owner"),
     sent Blog.world1 [verification "User" ["u1"] None]) /\
  addRelations Blog.posts "tags" "p1" ["t2"; "t1"] None Blog.world1
  = (Ok (mkDoc "p1" (<["tags" := VArray ["t1"; "t2"; "t2"; "t1"]]> (fields Blog.p1'))),
     updated Blog.posts "p1"
       (<["tags" := VArray ["t1"; "t2"; "t2"; "t1"]]> (fields Blog.p1'))
       Blog.world1
       [verification "Tag" ["t2"; "t1"] None;
        updateRequest Blog.posts "p1" None (UPush "tags" ["t2"; "t1"])]).
Proof.
  assert (resolvesTo Blog.posts "tags" "Tag") as Htags by (intros w; reflexivity).
  assert (resolvesTo Blog.posts "owner" "User") as Howner by (intros w; reflexivity).
  split.
  - refine (proj1 (addRelations_appends Blog.posts "owner" "User" "p1" ["u1"] []
                     None Blog.p1' Blog.world1 eq_refl Howner _) eq_refl).
    vm_compute. reflexivity.
  - refine (proj2 (addRelations_appends Blog.posts "tags" "Tag" "p1" ["t2"; "t1"]
                     ["t1"; "t2"] None Blog.p1' Blog.world1 eq_refl Htags _)
                  eq_refl _ eq_refl _ eq_refl).
    + vm_compute. reflexivity.
    + vm_compute. reflexivity.
    + done.
Defined.

(** X4. setRelation on a direct reference, when the relation id has
    exactly one target document and the entity [id] satisfies the caller's
    filter: the field is overwritten, whatever it held, with the relation
    id, or with the array of that one id when the path is an array (the
    update is cast to the type of the path); the updated entity is
    returned and the two requests sent are the count and the update. *)
Theorem setRelation_overwrites
    (this : Service) (relationName target id relationId : string)
    (opts : option ModifyRelationOptions) (d : Doc) (w : World) :
  isReferencePath this relationName = true ->
  resolvesTo this relationName target ->
  length (verified target [relationId] opts w) = 1 ->
  lookupDoc (collection (store w) (modelName (Model this))) id = Some d ->
  filterHolds (default FEmpty (opts ≫= modFilter)) d = true ->
  relationName ≠ "_id" ->
  let v := if isArrayReference this relationName then VArray [relationId]
           else VScalar relationId in
  let fs := <[relationName := v]> (fields d) in
  setRelation this relationName id relationId opts w
  = (Ok (mkDoc id fs),
     updated this id fs w [verification target [relationId] opts;
                           updateRequest this id opts (USet relationName v)]).
Proof.
  intros Hpath Hres Hlen Hd Hf Hne v fs.
  rewrite (setRelation_verified _ _ target) by done.
  rewrite (findAndUpdate_found _ _ _ _ (USet relationName v) _ d fs).
  - by rewrite updated_sent.
  - by apply castUpdate_set_value.
  - exact Hd.
  - exact Hf.
  - unfold applyUpdate. cbn [updatedField]. by rewrite decide_False.
Qed.

Lemma setRelation_overwrites_witness :
  setRelation Blog.posts "owner" "p1" "u1" None Blog.world0
  = (Ok (mkDoc "p1" (<["owner" := VScalar "u1"]> (fields Blog.p1))),
     updated Blog.posts "p1" (<["owner" := VScalar "u1"]> (fields Blog.p1)) Blog.world0
       [verification "User" ["u1"] None;
        updateRequest Blog.posts "p1" None (USet "owner" (VScalar "u1"))]) /\
  setRelation Blog.posts "tags" "p1" "t1" None Blog.world0
  = (Ok (mkDoc "p1" (<["tags" := VArray ["t1"]]> (fields Blog.p1))),
     updated Blog.posts "p1" (<["tags" := VArray ["t1"]]> (fields Blog.p1)) Blog.world0
       [verification "Tag" ["t1"] None;
        updateRequest Blog.posts "p1" None (USet "tags" (VArray ["t1"]))]).
Proof.
  split.
  - refine (setRelation_overwrites Blog.posts "owner" "User" "p1" "u1" None Blog.p1
              Blog.world0 eq_refl _ _ _ eq_refl _).
    + intros w. reflexivity.
    + vm_compute. reflexivity.
    + vm_compute. reflexivity.
    + done.
  - refine (setRelation_overwrites Blog.posts "tags" "Tag" "p1" "t1" None Blog.p1
              Blog.world0 eq_refl _ _ _ eq_refl _).
    + intros w. reflexivity.
    + vm_compute. reflexivity.
    + vm_compute. reflexivity.
    + done.
Defined.

(** X5. removeRelation on a single reference (a path that is not an
    array), when the relation id has exactly one target document and the
    entity [id] satisfies the caller's filter: the field is unset,
    whatever id it held (the relation id is only verified, not compared
    with the field); the entity is then reloaded by its id alone and
    returned without the field. Three requests are sent: the count, the
    update and the reload. *)
Theorem removeRelation_unsets
    (this : Service) (relationName target id relationId : string)
    (opts : option ModifyRelationOptions) (d : Doc) (w : World) :
  isReferencePath this relationName = true ->
  isArrayReference this relationName = false ->
  resolvesTo this relationName target ->
  length (verified target [relationId] opts w) = 1 ->
  lookupDoc (collection (store w) (modelName (Model this))) id = Some d ->
  filterHolds (default FEmpty (opts ≫= modFilter)) d = true ->
  relationName ≠ "_id" ->
  let fs := delete relationName (fields d) in
  removeRelation this relationName id relationId opts w
  = (Ok (mkDoc id fs),
     updated this id fs w [verification target [relationId] opts;
                           updateRequest this id opts (UUnset relationName relationId);
                           EvFindById (modelName (Model this)) id]).
Proof.
  intros Hpath _ Hres Hlen Hd Hf Hne fs.
  rewrite (removeRelation_verified _ _ target) by done.
  rewrite run_bind,
    (findAndUpdate_found _ _ _ _ (UUnset relationName relationId) _ d fs).
  - rewrite (getById_found _ _ _ (mkDoc id fs)) by apply lookupDoc_updated.
    by rewrite sent_updated, updated_sent.
  - done.
  - exact Hd.
  - exact Hf.
  - unfold applyUpdate. cbn [updatedField]. by rewrite decide_False.
Qed.

Lemma removeRelation_unsets_witness :
  removeRelation Blog.posts "owner" "p1" "u1" None Blog.world1
  = (Ok (mkDoc "p1" (delete "owner" (fields Blog.p1'))),
     updated Blog.posts "p1" (delete "owner" (fields Blog.p1')) Blog.world1
       [verification "User" ["u1"] None;
        updateRequest Blog.posts "p1" None (UUnset "owner" "u1");
        EvFindById "Post" "p1"]).
Proof.
  refine (removeRelation_unsets Blog.posts "owner" "User" "p1" "u1" None Blog.p1'
            Blog.world1 eq_refl eq_refl _ _ _ eq_refl _).
  - intros w. reflexivity.
  - vm_compute. reflexivity.
  - vm_compute. reflexivity.
  - done.
Defined.

(** X6. removeRelations on a direct reference that is not also a virtual
    path, when every relation id has its target document, the entity [id]
    satisfies the caller's filter and its field holds an array: every
    occurrence of every relation id is pulled from the array and the other
    ids keep their order; the entity is then reloaded by its id alone and
    returned as stored. Three requests are sent: the count, the update and
    the reload. *)
Theorem removeRelations_pulls
    (this : Service) (relationName target id : string) (relationIds old : list string)
    (opts : option ModifyRelationOptions) (d : Doc) (w : World) :
  isReferencePath this relationName = true ->
  isVirtualPath this relationName = false ->
  resolvesTo this relationName target ->
  length (verified target relationIds opts w) = length relationIds ->
  lookupDoc (collection (store w) (modelName (Model this))) id = Some d ->
  filterHolds (default FEmpty (opts ≫= modFilter)) d = true ->
  relationName ≠ "_id" ->
  get d relationName = VArray old ->
  let fs := <[relationName := VArray (filter (fun x => x ∉ relationIds) old)]> (fields d) in
  removeRelations this relationName id relationIds opts w
  = (Ok (mkDoc id fs),
     updated this id fs w [verification target relationIds opts;
                           updateRequest this id opts (UPullAll relationName relationIds);
                           EvFindById (modelName (Model this)) id]).
Proof.
  intros Hpath Hvirt Hres Hlen Hd Hf Hne Hold fs.
  rewrite (removeRelations_verified _ _ target) by done.
  rewrite run_bind,
    (findAndUpdate_found _ _ _ _ (UPullAll relationName relationIds) _ d fs).
  - rewrite (getById_found _ _ _ (mkDoc id fs)) by apply lookupDoc_updated.
    by rewrite sent_updated, updated_sent.
  - done.
  - exact Hd.
  - exact Hf.
  - by apply applyUpdate_pull.
Qed.

Lemma removeRelations_pulls_witness :
  removeRelations Blog.posts "tags" "p1" ["t1"] None Blog.world1
  = (Ok (mkDoc "p1" (<["tags" := VArray ["t2"]]> (fields Blog.p1'))),
     updated Blog.posts "p1" (<["tags" := VArray ["t2"]]> (fields Blog.p1')) Blog.world1
       [verification "Tag" ["t1"] None;
        updateRequest Blog.posts "p1" None (UPullAll "tags" ["t1"]);
        EvFindById "Post" "p1"]).
Proof.
  refine (removeRelations_pulls Blog.posts "tags" "Tag" "p1" ["t1"] ["t1"; "t2"] None
            Blog.p1' Blog.world1 eq_refl eq_refl _ _ _ eq_refl _ eq_refl).
  - intros w. reflexivity.
  - vm_compute. reflexivity.
  - vm_compute. reflexivity.
  - done.
Defined.

(** ** Mutations that throw *)

Section FailedMutations.

Variable this : Service.

Lemma reads_getRefCount relationName relationIds f :
  reads isCount (getRefCount this relationName relationIds f).
Proof.
  unfold getRefCount.
  repeat first [ apply reads_getReferenceModel | apply reads_useModel
               | apply reads_count | reads_step ].
  red; eauto.
Qed.

(** A mutation is the relation check, the count, and a continuation: when
    it throws, the store is the one the continuation was started in, as
    soon as the continuation itself does not write before it throws. *)
Lemma verified_then_throw operation relationName relationIds f
    (k : nat -> M Doc) w e w' :
  (forall n w0 e0 w0', k n w0 = (Throw e0, w0') -> store w0' = store w0) ->
  (_ ← checkForReference this operation relationName false;
   refCount ← getRefCount this relationName relationIds f;
   k refCount) w = (Throw e, w') ->
  store w' = store w.
Proof.
  intros Hk. rewrite run_bind.
  destruct (reads_run isCount (checkForReference this operation relationName false) w
              (reads_checkForReference _ _ _ _ _)) as (evs & -> & _).
  destruct (fst _) as [[]|e1]; [|by intros [= _ <-]].
  rewrite run_bind.
  destruct (reads_run isCount (getRefCount this relationName relationIds f) (sent w evs)
              (reads_getRefCount _ _ _)) as (evs' & -> & _).
  destruct (fst _) as [n|e1]; [|by intros [= _ <-]].
  intros Hthrow. by apply Hk in Hthrow.
Qed.

Lemma update_then_reload_throw id f u w e w' :
  (_ ← findAndUpdate this id f u; getById this id) w = (Throw e, w') ->
  store w' = store w.
Proof.
  rewrite run_bind.
  destruct (findAndUpdate this id f u w) as [[d|e1] w1] eqn:Hupd.
  - destruct (findAndUpdate_ok _ _ _ _ _ _ _ Hupd)
      as (d0 & fs & u' & _ & _ & _ & _ & _ & Hstore).
    rewrite (getById_found _ _ _ (mkDoc id fs)); [done|].
    rewrite Hstore. unfold lookupDoc, collection.
    rewrite lookup_insert_eq. cbn. by rewrite lookup_insert_eq.
  - intros [= _ <-]. by eapply findAndUpdate_throw.
Qed.

End FailedMutations.

(** X2. addRelations and setRelation write nothing when they throw:
    whatever the reason (unknown or virtual relation, unresolved reference
    type, failed verification, update that does not cast, entity not found
    under the caller's filter, update rejected by the store), the store
    after the throw is the store before. The same holds for
    removeRelation and removeRelations as long as the throw comes before
    the reload, that is, when no reload of the entity has been requested;
    a reload that fails comes after the update has been written. *)
Theorem failed_mutation_writes_nothing
    (this : Service) (relationName id relationId : string)
    (relationIds : list string) (opts : option ModifyRelationOptions) (w : World) :
  let clean (m : M Doc) :=
    forall e, fst (m w) = Throw e -> store (snd (m w)) = store w in
  let cleanBeforeReload (m : M Doc) :=
    forall e, fst (m w) = Throw e ->
      EvFindById (modelName (Model this)) id
        ∉ drop (length (trace w)) (trace (snd (m w))) ->
      store (snd (m w)) = store w in
  clean (addRelations this relationName id relationIds opts) /\
  clean (setRelation this relationName id relationId opts) /\
  cleanBeforeReload (removeRelation this relationName id relationId opts) /\
  cleanBeforeReload (removeRelations this relationName id relationIds opts).
Proof.
  intros clean cleanBeforeReload.
  assert (forall m : M Doc,
            (forall e w', m w = (Throw e, w') -> store w' = store w) -> clean m) as Hclean.
  { intros m Hm e He. destruct (m w) as [r w'] eqn:Hrun. cbn in *. subst r. eauto. }
  assert (forall m : M Doc, clean m -> cleanBeforeReload m) as Hweaken.
  { intros m Hm e He _. by apply (Hm e). }
  split; [|split; [|split]]; [| |apply Hweaken|apply Hweaken];
    apply Hclean; intros e w'.
  - apply verified_then_throw. intros n w0 e0 w0'.
    destruct (decide _); [by intros [= _ <-]|apply findAndUpdate_throw].
  - apply verified_then_throw. intros n w0 e0 w0'.
    destruct (decide _); [by intros [= _ <-]|apply findAndUpdate_throw].
  - apply verified_then_throw. intros n w0 e0 w0'.
    destruct (decide _); [by intros [= _ <-]|apply update_then_reload_throw].
  - apply verified_then_throw. intros n w0 e0 w0'.
    destruct (decide _); [by intros [= _ <-]|].
    destruct (isVirtualPath _ _); [by intros [= _ <-]|apply update_then_reload_throw].
Qed.

Lemma failed_mutation_writes_nothing_witness :
  fst (removeRelations Blog.posts "tags" "p404" ["t1"] None Blog.world1)
  = Throw (NotFoundException "Unable to find Post with id: p404") /\
  store (snd (removeRelations Blog.posts "tags" "p404" ["t1"] None Blog.world1))
  = store Blog.world1.
Proof.
  split; [vm_compute; reflexivity|].
  refine (proj2 (proj2 (proj2 (failed_mutation_writes_nothing Blog.posts "tags" "p404"
                                 "t1" ["t1"] None Blog.world1)))
                (NotFoundException "Unable to find Post with id: p404") _ _).
  - vm_compute. reflexivity.
  - vm_compute. intros Hin.
    repeat (apply elem_of_cons in Hin as [Hin|Hin]; [discriminate|]).
    by apply not_elem_of_nil in Hin.
Defined.

(** ** A path without a reference type *)

(** X7. For a schema path that carries no reference, neither embedded nor
    in its options: the four mutations, aggregateRelations (on one entity
    and on an array) and countRelations on one entity throw "Unable to
    lookup reference type for ..." without any request; findRelation
    throws it once it has re-fetched an entity that exists; countRelations
    on the empty array does not reach the lookup and returns the empty
    map. *)
Theorem path_without_reference_type
    (this : Service) (RelationClass : Class) (relationName : string) (st : SchemaType)
    (dto found : Doc) (dtos : list Entity) (findOpts : option FindRelationOptions)
    (f : Filter) (agg : AggregateQuery) (id relationId : string)
    (relationIds : list string) (opts : option ModifyRelationOptions) (w : World) :
  path (schema (Model this)) relationName = Some st ->
  embeddedRef st = None ->
  optionsRef st = None ->
  let lookupError := Error ("Unable to lookup reference type for " +:+ relationName) in
  addRelations this relationName id relationIds opts w = (Throw lookupError, w) /\
  setRelation this relationName id relationId opts w = (Throw lookupError, w) /\
  removeRelation this relationName id relationId opts w = (Throw lookupError, w) /\
  removeRelations this relationName id relationIds opts w = (Throw lookupError, w) /\
  aggregateRelationsOne this RelationClass relationName dto f agg w
  = (Throw lookupError, w) /\
  aggregateRelationsMany this RelationClass relationName dtos f agg w
  = (Throw lookupError, w) /\
  countRelationsOne this RelationClass relationName dto f w = (Throw lookupError, w) /\
  countRelationsMany this RelationClass relationName [] f w = (Ok [], w) /\
  (lookupDoc (collection (store w) (modelName (Model this))) (_id dto) = Some found ->
   findRelationOne this RelationClass relationName dto findOpts w
   = (Throw lookupError, sent w [EvFindById (modelName (Model this)) (_id dto)])).
Proof.
  intros Hst Hemb Hopt lookupError.
  assert (isReferencePath this relationName = true) as Hpath.
  { unfold isReferencePath. rewrite Hst. by apply bool_decide_eq_true. }
  assert (forall w0, getReferenceModel this relationName w0 = (Throw lookupError, w0))
    as Hlookup.
  { intros w0. unfold getReferenceModel. rewrite Hpath, Hst. cbn.
    by rewrite Hemb, Hopt. }
  assert (forall ids flt w0,
            getRefCount this relationName ids flt w0 = (Throw lookupError, w0)) as Hcount.
  { intros. unfold getRefCount. by rewrite run_bind, Hlookup. }
  repeat split.
  - unfold addRelations. rewrite run_bind, checkForReference_reference by done.
    by rewrite run_bind, Hcount.
  - unfold setRelation. rewrite run_bind, checkForReference_reference by done.
    by rewrite run_bind, Hcount.
  - unfold removeRelation. rewrite run_bind, checkForReference_reference by done.
    by rewrite run_bind, Hcount.
  - unfold removeRelations. rewrite run_bind, checkForReference_reference by done.
    by rewrite run_bind, Hcount.
  - unfold aggregateRelationsOne. rewrite run_bind, checkForReference_reference by done.
    by rewrite run_bind, Hlookup.
  - unfold aggregateRelationsMany. rewrite run_bind, checkForReference_reference by done.
    by rewrite run_bind, Hlookup.
  - unfold countRelationsOne. rewrite run_bind, checkForReference_reference by done.
    by rewrite run_bind, Hlookup.
  - unfold countRelationsMany. by rewrite run_bind, checkForReference_reference.
  - intros Hfound. unfold findRelationOne, findById.
    rewrite run_bind, checkForReference_reference by done. run.
    rewrite Hfound. by rewrite run_bind, Hlookup.
Qed.

Lemma path_without_reference_type_witness :
  countRelationsOne Blog.plain Blog.relation "title" Blog.p1 FEmpty Blog.world1
  = (Throw (Error "Unable to lookup reference type for title"), Blog.world1) /\
  findRelationOne Blog.plain Blog.relation "title" Blog.p1 None Blog.world1
  = (Throw (Error "Unable to lookup reference type for title"),
     sent Blog.world1 [EvFindById "Post" "p1"]).
Proof.
  pose proof (path_without_reference_type Blog.plain Blog.relation "title"
                (mkSchemaType None None) Blog.p1 Blog.p1' [] None FEmpty Blog.countAll
                "p1" "u1" [] None Blog.world1 eq_refl eq_refl eq_refl)
    as (_ & _ & _ & _ & _ & _ & Hcount & _ & Hfind).
  split; [exact Hcount|]. apply Hfind. vm_compute. reflexivity.
Defined.

(** ** A batched read that meets a failing entity *)

Lemma checkForReference_pure this operation refName allowVirtual :
  exists res, forall w, checkForReference this operation refName allowVirtual w = (res, w).
Proof.
  unfold checkForReference.
  destruct (isReferencePath this refName), (isVirtualPath this refName), allowVirtual;
    eexists; intros w; reflexivity.
Qed.

Lemma getReferenceModel_pure this refName :
  exists res, forall w, getReferenceModel this refName w = (res, w).
Proof.
  unfold getReferenceModel.
  repeat case_match; eexists; intros w; reflexivity.
Qed.

Section BatchAbort.

Context {V : Type}.
Variable P : Event -> Prop.
Variable one : Doc -> M V.
Hypothesis one_reads : forall d, reads P (one d).

Let step (prev : M (list (Entity * V))) (curr : Entity) : M (list (Entity * V)) :=
  map ← prev; ref ← one (doc curr); mret (mapSet curr ref map).

Lemma batch_returns (res : Entity -> V) (es : list Entity) (w : World) :
  (forall e, e ∈ es -> fst (one (doc e) w) = Ok (res e)) ->
  exists m evs, foldl step (mret []) es w = (Ok m, sent w evs).
Proof.
  induction es as [|e es IH] using rev_ind; intros Hone.
  - exists [], []. unfold sent. rewrite app_nil_r. by destruct w.
  - destruct IH as (m & evs & IH).
    { intros e' He'. apply Hone, elem_of_app. by left. }
    rewrite foldl_snoc. unfold step at 1. rewrite run_bind, IH.
    destruct (reads_run P (one (doc e)) (sent w evs) (one_reads _)) as (evs' & Hrun & _).
    destruct (reads_run P (one (doc e)) w (one_reads _)) as (_ & _ & Hsame).
    rewrite run_bind, Hrun, Hsame, Hone by (apply elem_of_app; right; constructor).
    eexists _, (evs ++ evs'). run. by rewrite sent_sent.
Qed.

Lemma batch_throw_absorbs (post : list Entity) (acc : M (list (Entity * V))) w e w' :
  acc w = (Throw e, w') -> foldl step acc post w = (Throw e, w').
Proof.
  revert acc. induction post as [|x post IH]; intros acc Hacc; [done|].
  cbn [foldl]. apply IH. unfold step. by apply run_bind_throw.
Qed.

(** The fold stops at the first entity whose single read throws: the
    result and the world are those of that throw, whatever follows. *)
Lemma batch_aborts (res : Entity -> V) (pre : list Entity) (e0 : Entity) err w :
  (forall e, e ∈ pre -> fst (one (doc e) w) = Ok (res e)) ->
  fst (one (doc e0) w) = Throw err ->
  exists evs, forall post,
    foldl step (mret []) (pre ++ e0 :: post) w = (Throw err, sent w evs).
Proof.
  intros Hpre Hfail.
  destruct (batch_returns res pre w Hpre) as (m & evs & Hfold).
  destruct (reads_run P (one (doc e0)) (sent w evs) (one_reads _)) as (evs' & Hrun & _).
  destruct (reads_run P (one (doc e0)) w (one_reads _)) as (_ & _ & Hsame).
  exists (evs ++ evs'). intros post.
  rewrite foldl_app. cbn [foldl]. apply batch_throw_absorbs.
  unfold step at 1. rewrite run_bind, Hfold, run_bind, Hrun, Hsame, Hfail.
  by rewrite sent_sent.
Qed.

End BatchAbort.

(** X8. A batched read stops at the first entity whose single read
    throws: when the single operation returns for the entities before it
    and throws for it, the batched operation throws that same error, and
    its result and requests are the same whatever entities follow in the
    array (they are not processed); the store is unchanged. *)
Theorem batched_read_stops_at_first_throw
    (this : Service) (RelationClass : Class) (relationName : string)
    (pre : list Entity) (e0 : Entity) (err : Exn)
    (findOpts : option FindRelationOptions) (query : Query)
    (f : Filter) (agg : AggregateQuery) (w : World)
    (found : Entity -> option Populated) (queried : Entity -> Populated)
    (aggregated : Entity -> AggregateResponse) (counted : Entity -> nat) :
  ((forall e, e ∈ pre ->
      fst (findRelationOne this RelationClass relationName (doc e) findOpts w)
      = Ok (found e)) ->
   fst (findRelationOne this RelationClass relationName (doc e0) findOpts w) = Throw err ->
   exists evs, forall post,
     findRelationMany this RelationClass relationName (pre ++ e0 :: post) findOpts w
     = (Throw err, sent w evs)) /\
  ((forall e, e ∈ pre ->
      fst (queryRelationsOne this RelationClass relationName (doc e) query w)
      = Ok (queried e)) ->
   fst (queryRelationsOne this RelationClass relationName (doc e0) query w) = Throw err ->
   exists evs, forall post,
     queryRelationsMany this RelationClass relationName (pre ++ e0 :: post) query w
     = (Throw err, sent w evs)) /\
  ((forall e, e ∈ pre ->
      fst (aggregateRelationsOne this RelationClass relationName (doc e) f agg w)
      = Ok (aggregated e)) ->
   fst (aggregateRelationsOne this RelationClass relationName (doc e0) f agg w)
   = Throw err ->
   exists evs, forall post,
     aggregateRelationsMany this RelationClass relationName (pre ++ e0 :: post) f agg w
     = (Throw err, sent w evs)) /\
  ((forall e, e ∈ pre ->
      fst (countRelationsOne this RelationClass relationName (doc e) f w)
      = Ok (counted e)) ->
   fst (countRelationsOne this RelationClass relationName (doc e0) f w) = Throw err ->
   exists evs, forall post,
     countRelationsMany this RelationClass relationName (pre ++ e0 :: post) f w
     = (Throw err, sent w evs)).
Proof.
  split; [|split; [|split]]; intros Hpre Hfail.
  - destruct (checkForReference_pure this "FindRelation" relationName true)
      as [[[]|e1] Hcheck].
    + destruct (batch_aborts isQuery
                  (fun d => findRelationOne this RelationClass relationName d findOpts)
                  (fun d => reads_findRelationOne _ _ _ d _) found pre e0 err w Hpre Hfail)
        as [evs Hfold].
      exists evs. intros post. unfold findRelationMany.
      rewrite run_bind, Hcheck. apply Hfold.
    + unfold findRelationOne in Hfail. rewrite run_bind, Hcheck in Hfail.
      injection Hfail as ->. exists []. intros post. unfold findRelationMany.
      rewrite run_bind, Hcheck. unfold sent. rewrite app_nil_r. by destruct w.
  - destruct (checkForReference_pure this "QueryRelations" relationName true)
      as [[[]|e1] Hcheck].
    + destruct (batch_aborts isQuery
                  (fun d => queryRelationsOne this RelationClass relationName d query)
                  (fun d => reads_queryRelationsOne _ _ _ d _) queried pre e0 err w Hpre Hfail)
        as [evs Hfold].
      exists evs. intros post. unfold queryRelationsMany.
      rewrite run_bind, Hcheck. apply Hfold.
    + unfold queryRelationsOne in Hfail. rewrite run_bind, Hcheck in Hfail.
      injection Hfail as ->. exists []. intros post. unfold queryRelationsMany.
      rewrite run_bind, Hcheck. unfold sent. rewrite app_nil_r. by destruct w.
  - destruct (checkForReference_pure this "AggregateRelations" relationName true)
      as [[[]|e1] Hcheck].
    + destruct (getReferenceModel_pure this relationName) as [[model|e1] Hmodel].
      * destruct (batch_aborts isAggregate
                    (fun d => aggregateRelationsOne this RelationClass relationName d f agg)
                    (fun d => reads_aggregateRelationsOne _ _ _ d _ _) aggregated pre e0
                    err w Hpre Hfail) as [evs Hfold].
        exists evs. intros post. unfold aggregateRelationsMany.
        rewrite run_bind, Hcheck, run_bind, Hmodel. apply Hfold.
      * unfold aggregateRelationsOne in Hfail.
        rewrite run_bind, Hcheck, run_bind, Hmodel in Hfail.
        injection Hfail as ->. exists []. intros post. unfold aggregateRelationsMany.
        rewrite run_bind, Hcheck, run_bind, Hmodel.
        unfold sent. rewrite app_nil_r. by destruct w.
    + unfold aggregateRelationsOne in Hfail. rewrite run_bind, Hcheck in Hfail.
      injection Hfail as ->. exists []. intros post. unfold aggregateRelationsMany.
      rewrite run_bind, Hcheck. unfold sent. rewrite app_nil_r. by destruct w.
  - destruct (checkForReference_pure this "CountRelations" relationName true)
      as [[[]|e1] Hcheck].
    + destruct (batch_aborts isCount
                  (fun d => countRelationsOne this RelationClass relationName d f)
                  (fun d => reads_countRelationsOne _ _ _ d _) counted pre e0 err w Hpre Hfail)
        as [evs Hfold].
      exists evs. intros post. unfold countRelationsMany.
      rewrite run_bind, Hcheck. apply Hfold.
    + unfold countRelationsOne in Hfail. rewrite run_bind, Hcheck in Hfail.
      injection Hfail as ->. exists []. intros post. unfold countRelationsMany.
      rewrite run_bind, Hcheck. unfold sent. rewrite app_nil_r. by destruct w.
Qed.

Lemma batched_read_stops_at_first_throw_witness :
  exists evs, forall post,
    findRelationMany Blog.plain Blog.relation "title"
      ([mkEntity 1 Blog.p9] ++ mkEntity 2 Blog.p1 :: post) None Blog.world1
    = (Throw (Error "Unable to lookup reference type for title"), sent Blog.world1 evs).
Proof.
  refine (proj1 (batched_read_stops_at_first_throw Blog.plain Blog.relation "title"
                   [mkEntity 1 Blog.p9] (mkEntity 2 Blog.p1)
                   (Error "Unable to lookup reference type for title")
                   None (mkQuery None None []) FEmpty Blog.countAll Blog.world1
                   (fun _ => None) (fun _ => PopNull) (fun _ => ∅) (fun _ => 0)) _ _).
  - intros e He. apply elem_of_cons in He as [->|He]; [vm_compute; reflexivity|].
    by apply not_elem_of_nil in He.
  - vm_compute. reflexivity.
Defined.

(** ** A batched read of an array that repeats an entity object *)

Lemma firstOccurrences_snoc (p : list Entity) (e : Entity) :
  firstOccurrences (p ++ [e])
  = if decide (addr e ∈ addr <$> p) then firstOccurrences p
    else firstOccurrences p ++ [e].
Proof.
  induction p as [|x p IH].
  - cbn. rewrite decide_False; [done|]. apply not_elem_of_nil.
  - cbn [app firstOccurrences]. rewrite IH, fmap_cons.
    destruct (decide (addr e ∈ addr <$> p)) as [Hin|Hnotin].
    + rewrite decide_True; [done|]. by right.
    + rewrite filter_app, filter_cons, filter_nil.
      destruct (decide (addr e = addr x)) as [Heq|Hne].
      * rewrite decide_False by (intros H; by apply H).
        rewrite app_nil_r, decide_True; [done|]. rewrite Heq. left.
      * rewrite decide_True by done. rewrite decide_False; [done|].
        intros [?|?]%elem_of_cons; done.
Qed.

Lemma firstOccurrences_sub (p : list Entity) (x : Entity) :
  x ∈ firstOccurrences p -> x ∈ p.
Proof.
  revert x. induction p as [|y p IH]; intros x; cbn; [done|].
  intros [->|Hx]%elem_of_cons; [left|].
  apply list_elem_of_filter in Hx as [_ Hx]. right. by apply IH.
Qed.

Lemma firstOccurrences_addr (p : list Entity) (a : nat) :
  a ∈ addr <$> p -> a ∈ addr <$> firstOccurrences p.
Proof.
  induction p as [|x p IH]; [done|]. cbn [firstOccurrences]. rewrite !fmap_cons.
  destruct (decide (a = addr x)) as [->|Hne]; [intros _; left|].
  intros [?|Hin]%elem_of_cons; [done|]. right.
  destruct (list_elem_of_fmap_1 _ _ _ (IH Hin)) as (y & -> & Hy).
  apply (list_elem_of_fmap_2 addr), list_elem_of_filter. by split.
Qed.

Lemma filter_all {X} (Q : X -> Prop) `{!forall x, Decision (Q x)} (l : list X) :
  (forall x, x ∈ l -> Q x) -> filter Q l = l.
Proof.
  induction l as [|x l IH]; intros Hall; [done|].
  rewrite filter_cons, decide_True by (apply Hall; left).
  f_equal. apply IH. intros y Hy. apply Hall. by right.
Qed.

Lemma firstOccurrences_NoDup (es : list Entity) :
  NoDup (addr <$> es) -> firstOccurrences es = es.
Proof.
  induction es as [|e es IH]; [done|]. rewrite fmap_cons, NoDup_cons.
  intros [Hnotin Hnodup]. cbn. rewrite IH by done. f_equal.
  apply filter_all. intros x Hx Heq. apply Hnotin. rewrite <- Heq.
  by apply (list_elem_of_fmap_2 addr).
Qed.

Lemma mapSet_present {V} (res : Entity -> V) (l : list Entity) (k : Entity) :
  addr k ∈ addr <$> l ->
  (forall e, e ∈ l -> addr e = addr k -> e = k) ->
  mapSet k (res k) ((fun e => (e, res e)) <$> l) = (fun e => (e, res e)) <$> l.
Proof.
  induction l as [|x l IH]; intros Hin Hsame.
  - by apply elem_of_nil in Hin.
  - rewrite fmap_cons. cbn [mapSet].
    destruct (decide (addr x = addr k)) as [Heq|Hne].
    + rewrite (Hsame x); [done|left|done].
    + f_equal. apply IH.
      * rewrite fmap_cons in Hin. apply elem_of_cons in Hin as [?|?]; [done|done].
      * intros e He. apply Hsame. by right.
Qed.

Lemma batch_run_repeated {V} P (one : Doc -> M V) (res : Entity -> V)
    (es : list Entity) (w : World) :
  (forall d, reads P (one d)) ->
  (forall e e', e ∈ es -> e' ∈ es -> addr e = addr e' -> e = e') ->
  (forall e, e ∈ es -> fst (one (doc e) w) = Ok (res e)) ->
  exists evs,
    foldl (fun prev curr =>
             map ← prev; ref ← one (doc curr); mret (mapSet curr ref map))
          (mret []) es w
    = (Ok ((fun e => (e, res e)) <$> firstOccurrences es), sent w evs).
Proof.
  intros Hreads. induction es as [|e es IH] using rev_ind; intros Hobj Hone.
  - exists []. unfold sent. rewrite app_nil_r. by destruct w.
  - destruct IH as [evs IH].
    { intros x y Hx Hy. apply Hobj; apply elem_of_app; by left. }
    { intros x Hx. apply Hone, elem_of_app. by left. }
    rewrite foldl_snoc, run_bind, IH.
    destruct (reads_run P (one (doc e)) (sent w evs) (Hreads _)) as (evs' & Hrun & _).
    destruct (reads_run P (one (doc e)) w (Hreads _)) as (_ & _ & Hsame).
    rewrite run_bind, Hrun, Hsame, Hone by (apply elem_of_app; right; constructor).
    exists (evs ++ evs'). run. rewrite sent_sent. f_equal. f_equal.
    rewrite firstOccurrences_snoc.
    destruct (decide (addr e ∈ addr <$> es)) as [Hin|Hnotin].
    + apply mapSet_present; [by apply firstOccurrences_addr|].
      intros x Hx%firstOccurrences_sub Haddr.
      apply Hobj; [by apply elem_of_app; left|apply elem_of_app; right; constructor|done].
    + rewrite fmap_app. apply mapSet_fresh.
      rewrite <- list_fmap_compose. intros Hin. apply Hnotin.
      destruct (list_elem_of_fmap_1 _ _ _ Hin) as (x & Heq & Hx%firstOccurrences_sub).
      rewrite Heq. by apply (list_elem_of_fmap_2 addr).
Qed.

(** X9. A batched read of an array in which the same entity object may
    occur several times (objects with the same identity are the same
    object): when the single operation returns for each entity, the map
    returned has one entry per distinct object, at the place of its first
    occurrence, with the result of the single operation; later occurrences
    add no entry. For pairwise distinct objects this is the array
    itself. *)
Theorem batched_reads_keep_first_occurrence
    (this : Service) (RelationClass : Class) (relationName : string)
    (dtos : list Entity) (findOpts : option FindRelationOptions) (query : Query)
    (f : Filter) (agg : AggregateQuery) (w : World) (model : option string)
    (found : Entity -> option Populated) (queried : Entity -> Populated)
    (aggregated : Entity -> AggregateResponse) (counted : Entity -> nat) :
  isReferencePath this relationName = true \/ isVirtualPath this relationName = true ->
  (forall e e', e ∈ dtos -> e' ∈ dtos -> addr e = addr e' -> e = e') ->
  (NoDup (addr <$> dtos) -> firstOccurrences dtos = dtos) /\
  ((forall e, e ∈ dtos ->
      fst (findRelationOne this RelationClass relationName (doc e) findOpts w)
      = Ok (found e)) ->
   exists evs, findRelationMany this RelationClass relationName dtos findOpts w
               = (Ok ((fun e => (e, found e)) <$> firstOccurrences dtos), sent w evs)) /\
  ((forall e, e ∈ dtos ->
      fst (queryRelationsOne this RelationClass relationName (doc e) query w)
      = Ok (queried e)) ->
   exists evs, queryRelationsMany this RelationClass relationName dtos query w
               = (Ok ((fun e => (e, queried e)) <$> firstOccurrences dtos), sent w evs)) /\
  (fst (getReferenceModel this relationName w) = Ok model ->
   (forall e, e ∈ dtos ->
      fst (aggregateRelationsOne this RelationClass relationName (doc e) f agg w)
      = Ok (aggregated e)) ->
   exists evs, aggregateRelationsMany this RelationClass relationName dtos f agg w
               = (Ok ((fun e => (e, aggregated e)) <$> firstOccurrences dtos),
                  sent w evs)) /\
  ((forall e, e ∈ dtos ->
      fst (countRelationsOne this RelationClass relationName (doc e) f w)
      = Ok (counted e)) ->
   exists evs, countRelationsMany this RelationClass relationName dtos f w
               = (Ok ((fun e => (e, counted e)) <$> firstOccurrences dtos), sent w evs)).
Proof.
  intros Hdecl Hobj. split; [apply firstOccurrences_NoDup|].
  split; [|split; [|split]];
    [intros Hone|intros Hone|intros Hmodel Hone|intros Hone].
  - unfold findRelationMany.
    rewrite run_bind, checkForReference_declared by done.
    apply (batch_run_repeated isQuery
             (fun d => findRelationOne this RelationClass relationName d findOpts) found);
      auto using reads_findRelationOne.
  - unfold queryRelationsMany.
    rewrite run_bind, checkForReference_declared by done.
    apply (batch_run_repeated isQuery
             (fun d => queryRelationsOne this RelationClass relationName d query) queried);
      auto using reads_queryRelationsOne.
  - unfold aggregateRelationsMany.
    rewrite run_bind, checkForReference_declared by done.
    destruct (getReferenceModel_pure this relationName) as [res Hpure].
    rewrite Hpure in Hmodel. cbn in Hmodel. subst res.
    rewrite run_bind, Hpure.
    apply (batch_run_repeated isAggregate
             (fun d => aggregateRelationsOne this RelationClass relationName d f agg)
             aggregated);
      auto using reads_aggregateRelationsOne.
  - unfold countRelationsMany.
    rewrite run_bind, checkForReference_declared by done.
    apply (batch_run_repeated isCount
             (fun d => countRelationsOne this RelationClass relationName d f) counted);
      auto using reads_countRelationsOne.
Qed.

Lemma batched_reads_keep_first_occurrence_witness :
  exists evs,
    countRelationsMany Blog.posts Blog.relation "tags"
      [mkEntity 1 Blog.p1; mkEntity 2 Blog.p9; mkEntity 1 Blog.p1] FEmpty Blog.world0
    = (Ok [(mkEntity 1 Blog.p1, 0); (mkEntity 2 Blog.p9, 1)], sent Blog.world0 evs).
Proof.
  refine (proj2 (proj2 (proj2 (proj2
            (batched_reads_keep_first_occurrence Blog.posts Blog.relation "tags"
               [mkEntity 1 Blog.p1; mkEntity 2 Blog.p9; mkEntity 1 Blog.p1] None
               (mkQuery None None []) FEmpty Blog.countAll Blog.world0 (Some "Tag")
               (fun _ => None) (fun _ => PopDocs []) (fun _ => ∅)
               (fun e => if decide (addr e = 1) then 0 else 1)
               (or_introl eq_refl) _)))) _).
  - intros e e' He He' Haddr.
    repeat (apply elem_of_cons in He as [->|He]);
      repeat (apply elem_of_cons in He' as [->|He']);
      try done; by (apply not_elem_of_nil in He || apply not_elem_of_nil in He').
  - intros e He.
    repeat (apply elem_of_cons in He as [->|He]); try (vm_compute; reflexivity).
    by apply not_elem_of_nil in He.
Defined.

(** ** Round trips of the single reference and of the removal *)

Lemma elem_of_applyOptions o l d : d ∈ applyOptions o l -> d ∈ l.
Proof.
  unfold applyOptions. intros Hd.
  assert (d ∈ sortDocs (optSort o) l) as Hsorted.
  { destruct (optLimit o) as [[|n]|]; [|apply subseteq_take in Hd|];
      by apply subseteq_drop in Hd. }
  unfold sortDocs in Hsorted. destruct (optSort o); [done|].
  by rewrite merge_sort_Permutation in Hsorted.
Qed.

Section AfterMutation.

Variable this : Service.

Lemma setRelation_ok relationName target id relationId opts w e w1 :
  isReferencePath this relationName = true ->
  resolvesTo this relationName target ->
  setRelation this relationName id relationId opts w = (Ok e, w1) ->
  length (verified target [relationId] opts w) = 1 /\
  findAndUpdate this id (opts ≫= modFilter) (USet relationName (VScalar relationId))
    (sent w [verification target [relationId] opts]) = (Ok e, w1).
Proof.
  intros Hpath Hres Hset.
  destruct (decide (length (verified target [relationId] opts w) = 1)) as [Hlen|Hlen].
  - split; [done|]. by rewrite <- (setRelation_verified _ _ target).
  - by rewrite (setRelation_mismatch _ _ target) in Hset.
Qed.

Lemma removeRelations_ok relationName target id relationIds opts w e w1 :
  isReferencePath this relationName = true ->
  resolvesTo this relationName target ->
  removeRelations this relationName id relationIds opts w = (Ok e, w1) ->
  length (verified target relationIds opts w) = length relationIds /\
  exists e' w',
    findAndUpdate this id (opts ≫= modFilter) (UPullAll relationName relationIds)
      (sent w [verification target relationIds opts]) = (Ok e', w') /\
    store w1 = store w'.
Proof.
  intros Hpath Hres Hrem.
  destruct (decide (length (verified target relationIds opts w) = length relationIds))
    as [Hlen|Hlen]; [|by rewrite (removeRelations_mismatch _ _ target) in Hrem].
  split; [done|].
  destruct (isVirtualPath this relationName) eqn:Hvirt.
  - unfold removeRelations in Hrem.
    rewrite run_bind, checkForReference_reference in Hrem by done.
    rewrite run_bind, (getRefCount_run _ _ target) in Hrem by done.
    rewrite decide_False, Hvirt in Hrem by (intros ?; congruence). done.
  - rewrite (removeRelations_verified _ _ target), run_bind in Hrem by done.
    destruct (findAndUpdate _ _ _ _ _) as [[e'|err] w'] eqn:Hupd; [|done].
    exists e', w'. split; [done|].
    destruct (reads_store isQuery (getById this id) w') as (evs & Hsent & _).
    { unfold getById. repeat first [ apply reads_findById | reads_step ]. done. }
    rewrite Hrem in Hsent. cbn in Hsent. by subst w1.
Qed.

End AfterMutation.

(** X10. After setRelation has succeeded for the entity [id] on a direct
    reference, findRelation on that entity looks the relation id up: the
    relation id has its document in the target collection, and what is
    populated is that document when it satisfies the caller's filter and
    "no document" when it does not (on an array path: the list of that one
    document, or the empty list). findRelation hands it to the assembler:
    it throws what the conversion throws, and otherwise returns the
    converted value, or absent when that value is falsy. *)
Theorem set_then_find_returns_the_target
    (this : Service) (RelationClass : Class) (relationName target id relationId : string)
    (opts : option ModifyRelationOptions) (dto : Doc)
    (findOpts : option FindRelationOptions) (e : Doc) (w w1 : World) :
  isReferencePath this relationName = true ->
  resolvesTo this relationName target ->
  setRelation this relationName id relationId opts w = (Ok e, w1) ->
  _id dto = id ->
  let assembler := entityAssembler RelationClass in
  let q := buildFilterQuery
             (qFilter (convertQuery assembler (mkQuery (findOpts ≫= findFilter) None []))) in
  exists d,
    lookupDoc (collection (store w1) target) relationId = Some d /\
    let populated :=
      if isArrayReference this relationName
      then PopDocs (if matches q d then [d] else [])
      else if matches q d then PopDoc d else PopNull in
    fst (findRelationOne this RelationClass relationName dto findOpts w1)
    = match convertToDTO assembler populated with
      | Ok converted => Ok (if truthy converted then Some converted else None)
      | Throw err => Throw err
      end.
Proof.
  intros Hpath Hres Hset Hid assembler q.
  destruct (setRelation_ok _ _ _ _ _ _ _ _ _ Hpath Hres Hset) as [Hlen Hupd].
  destruct (findAndUpdate_ok _ _ _ _ _ _ _ Hupd)
    as (d0 & fs & u' & Hcast & Hd0 & Hd0id & Happly & He & Hstore).
  cbn [sent store] in Hstore, Hd0.
  apply elem_of_matching in Hd0 as [_ Hd0]. rewrite Hd0id in Hd0.
  rewrite castUpdate_set_value in Hcast by done. injection Hcast as <-.
  assert (relationName ≠ "_id" /\
          fs = <[relationName := if isArrayReference this relationName
                                 then VArray [relationId] else VScalar relationId]>
                 (fields d0))
    as [Hne Hfs].
  { unfold applyUpdate in Happly. cbn [updatedField] in Happly.
    destruct (decide (relationName = "_id")); [done|]. split; [done|].
    by injection Happly as <-. }
  destruct (resolvesTo_inv _ _ _ Hres)
    as [(_ & st & ref & Hst & Href & Hmodel)|(Hpath' & _)]; [|congruence].
  destruct (verified_complete target [relationId] opts w) as [_ Hall]; [done|].
  destruct (Hall relationId) as (d & Hd & Hdid); [left|].
  apply elem_of_matching in Hd as [_ Hd]. rewrite Hdid in Hd.
  destruct (lookupDoc_after_update (store w) (modelName (Model this)) target id
              relationId fs) as [d' Hd']; [by rewrite Hd0|by rewrite Hd|].
  rewrite <- Hstore in Hd'. exists d'. split; [done|].
  assert (lookupDoc (collection (store w1) (modelName (Model this))) (_id dto)
          = Some (mkDoc id fs)) as Hfound.
  { rewrite Hid, Hstore. unfold lookupDoc, collection.
    rewrite lookup_insert_eq. cbn. by rewrite lookup_insert_eq. }
  assert (get (mkDoc id fs) relationName
          = if isArrayReference this relationName
            then VArray [relationId] else VScalar relationId) as Hget.
  { unfold get. rewrite decide_False by done. cbn.
    by rewrite Hfs, lookup_insert_eq. }
  unfold findRelationOne, findById.
  rewrite run_bind, checkForReference_reference by done. run.
  rewrite Hfound. rewrite run_bind, Hres. unfold useModel. run.
  unfold populate. rewrite Hst, Href, Hget, Hmodel.
  destruct (isArrayReference this relationName); run.
  - assert (applyOptions (mkOpts None None [])
              (filter (fun d1 => matches q d1 = true)
                 (omap (lookupDoc (collection (store w1) target)) [relationId]))
            = if matches q d' then [d'] else []) as Hlist.
    { unfold applyOptions. cbn. rewrite Hd'. cbn.
      destruct (filterHolds _ d'); [by rewrite decide_True|by rewrite decide_False]. }
    subst q assembler. rewrite Hlist. by destruct (convertToDTO _ _).
  - rewrite Hd'. subst q assembler. by destruct (convertToDTO _ _).
Qed.

Lemma set_then_find_returns_the_target_witness :
  exists d,
    lookupDoc (collection
                 (store (snd (setRelation Blog.posts "owner" "p1" "u1" None Blog.world0)))
                 "User") "u1" = Some d /\
    fst (findRelationOne Blog.posts Blog.relation "owner" Blog.p1 None
           (snd (setRelation Blog.posts "owner" "p1" "u1" None Blog.world0)))
    = Ok (Some (PopDoc d)).
Proof.
  destruct (set_then_find_returns_the_target Blog.posts Blog.relation "owner" "User"
              "p1" "u1" None Blog.p1 None
              (mkDoc "p1" (<["owner" := VScalar "u1"]> (fields Blog.p1))) Blog.world0
              (snd (setRelation Blog.posts "owner" "p1" "u1" None Blog.world0)))
    as (d & Hd & Hfind).
  - reflexivity.
  - intros w. reflexivity.
  - vm_compute. reflexivity.
  - reflexivity.
  - exists d. split; [exact Hd|]. rewrite Hfind. reflexivity.
Defined.

(** X11. After removeRelations has succeeded for the entity [id] on a
    direct reference, queryRelations on that entity, whatever the query,
    returns a result, and when the result is a list of documents none of
    them has one of the removed ids. *)
Theorem removed_relations_are_not_queried
    (this : Service) (RelationClass : Class) (relationName target id : string)
    (relationIds : list string) (opts : option ModifyRelationOptions)
    (dto : Doc) (query : Query) (e : Doc) (w w1 : World) :
  isReferencePath this relationName = true ->
  resolvesTo this relationName target ->
  removeRelations this relationName id relationIds opts w = (Ok e, w1) ->
  _id dto = id ->
  exists p w2,
    queryRelationsOne this RelationClass relationName dto query w1 = (Ok p, w2) /\
    forall l d, p = PopDocs l -> d ∈ l -> _id d ∉ relationIds.
Proof.
  intros Hpath Hres Hrem Hid.
  destruct (removeRelations_ok _ _ _ _ _ _ _ _ _ Hpath Hres Hrem)
    as (_ & e' & w' & Hupd & Hsame).
  destruct (findAndUpdate_ok _ _ _ _ _ _ _ Hupd)
    as (d0 & fs & u' & Hcast & _ & _ & Happly & _ & Hstore).
  cbn in Hcast. injection Hcast as <-.
  cbn [sent store] in Hstore. rewrite <- Hsame in Hstore.
  destruct (resolvesTo_inv _ _ _ Hres)
    as [(_ & st & ref & Hst & Href & Hmodel)|(Hpath' & _)]; [|congruence].
  assert (lookupDoc (collection (store w1) (modelName (Model this))) (_id dto)
          = Some (mkDoc id fs)) as Hfound.
  { rewrite Hid, Hstore. unfold lookupDoc, collection.
    rewrite lookup_insert_eq. cbn. by rewrite lookup_insert_eq. }
  assert (relationName ≠ "_id" /\
          (get (mkDoc id fs) relationName = VUndefined \/
           exists old, get (mkDoc id fs) relationName
                       = VArray (filter (fun x => x ∉ relationIds) old)))
    as [Hne Hget].
  { unfold applyUpdate in Happly. cbn [updatedField] in Happly.
    destruct (decide (relationName = "_id")); [done|]. split; [done|].
    unfold get. rewrite decide_False by done. cbn.
    destruct (fields d0 !! relationName) as [[| |old]|] eqn:Hfield;
      cbn in Happly; try done; injection Happly as <-.
    - left. by rewrite Hfield.
    - right. exists old. by rewrite lookup_insert_eq.
    - left. by rewrite Hfield. }
  unfold queryRelationsOne, findById.
  rewrite run_bind, checkForReference_reference by done. run.
  rewrite Hfound. destruct (buildQuery _) as [filterQuery options].
  unfold populate. rewrite Hst, Href, Hmodel.
  destruct Hget as [-> | [old ->]]; run.
  - eexists _, _. split; [reflexivity|]. intros l d Hp Hd.
    destruct (embeddedRef st); [|done]. injection Hp as <-.
    by apply elem_of_nil in Hd.
  - eexists _, _. split; [reflexivity|]. intros l d [= <-] Hd.
    apply elem_of_applyOptions, list_elem_of_filter in Hd as [_ Hd].
    apply list_elem_of_omap in Hd as (rid & Hrid & Hlook).
    apply lookupDoc_id in Hlook. rewrite Hlook.
    by apply list_elem_of_filter in Hrid as [Hrid _].
Qed.

Lemma removed_relations_are_not_queried_witness :
  exists p w2,
    queryRelationsOne Blog.posts Blog.relation "tags" Blog.p1 (mkQuery None None [])
      (snd (removeRelations Blog.posts "tags" "p1" ["t1"] None Blog.world1))
    = (Ok p, w2) /\
    forall l d, p = PopDocs l -> d ∈ l -> _id d ∉ ["t1"].
Proof.
  refine (removed_relations_are_not_queried Blog.posts Blog.relation "tags" "Tag" "p1"
            ["t1"] None Blog.p1 (mkQuery None None [])
            (mkDoc "p1" (<["tags" := VArray ["t2"]]> (fields Blog.p1'))) Blog.world1
            (snd (removeRelations Blog.posts "tags" "p1" ["t1"] None Blog.world1))
            eq_refl _ _ eq_refl).
  - intros w. reflexivity.
  - vm_compute. reflexivity.
Defined.

(** ** Counting against querying *)

Lemma NoDup_omap_lookupDoc (c : Collection) (ids : list string) :
  NoDup ids -> NoDup (omap (lookupDoc c) ids).
Proof.
  induction ids as [|id ids IH]; [constructor|].
  rewrite NoDup_cons. intros [Hnotin Hnodup]. cbn [omap list_omap].
  destruct (lookupDoc c id) as [d|] eqn:Hd; [|by apply IH].
  apply NoDup_cons. split; [|by apply IH].
  intros (id' & Hid' & Hlook)%list_elem_of_omap.
  apply lookupDoc_id in Hd, Hlook. congruence.
Qed.

Lemma length_applyOptions_unpaged sort l :
  length (applyOptions (mkOpts None None sort) l) = length l.
Proof.
  unfold applyOptions, sortDocs. cbn. destruct sort; [done|].
  by rewrite merge_sort_Permutation.
Qed.

Lemma matches_reference f ids d :
  matches (buildFilterQuery (Some (mergeFilter f (FCmp "_id" (CmpIn ids))))) d
  = filterHolds f d && bool_decide (_id d ∈ ids).
Proof. unfold matches. cbn. by rewrite filterHolds_mergeFilter. Qed.

(** X12. countRelations agrees with queryRelations on a direct reference:
    when the entity passed in holds the same array of pairwise distinct
    ids as the stored entity, and the query carries the same filter and
    no paging once converted, queryRelations returns a list of documents
    and countRelations returns its length. *)
Theorem count_is_length_of_query
    (this : Service) (RelationClass : Class) (relationName target : string)
    (dto stored : Doc) (ids : list string) (query : Query) (f : Filter) (w : World) :
  isReferencePath this relationName = true ->
  resolvesTo this relationName target ->
  lookupDoc (collection (store w) (modelName (Model this))) (_id dto) = Some stored ->
  get stored relationName = VArray ids ->
  get dto relationName = VArray ids ->
  NoDup ids ->
  qPaging (convertQuery (documentAssembler RelationClass) query) = None ->
  qFilter (convertQuery (documentAssembler RelationClass) query)
  = qFilter (convertQuery (documentAssembler RelationClass) (mkQuery (Some f) None [])) ->
  exists l,
    fst (queryRelationsOne this RelationClass relationName dto query w) = Ok (PopDocs l) /\
    fst (countRelationsOne this RelationClass relationName dto f w) = Ok (length l).
Proof.
  intros Hpath Hres Hstored Hget Hdto Hnodup Hpaging Hfilter.
  destruct (resolvesTo_inv _ _ _ Hres)
    as [(_ & st & ref & Hst & Href & Hmodel)|(Hpath' & _)]; [|congruence].
  rewrite (countRelationsOne_direct _ _ _ target) by done.
  unfold queryRelationsOne, findById.
  rewrite run_bind, checkForReference_reference by done. run.
  rewrite Hstored. unfold buildQuery. rewrite Hpaging. cbn [mbind option_bind].
  unfold populate. rewrite Hst, Href, Hmodel, Hget. run.
  eexists. split; [reflexivity|]. cbn [fst]. f_equal.
  rewrite length_applyOptions_unpaged. symmetry. apply Permutation_length.
  apply NoDup_Permutation.
  - apply NoDup_filter, NoDup_omap_lookupDoc, Hnodup.
  - apply (NoDup_fmap_1 _id), NoDup_matching_ids.
  - intros d. rewrite list_elem_of_filter, list_elem_of_omap, elem_of_matching.
    unfold referenceQuery, getObjectIdReferenceFilter. rewrite Hdto, <- Hfilter.
    rewrite matches_reference. unfold matches, buildFilterQuery. cbn.
    rewrite andb_true_iff, bool_decide_eq_true. split.
    + intros (Hmatch & rid & Hrid & Hlook).
      pose proof (lookupDoc_id _ _ _ Hlook) as Hid. rewrite Hid.
      by repeat split.
    + intros ((Hmatch & Hin) & Hlook). split; [done|]. by exists (_id d).
Qed.

Lemma count_is_length_of_query_witness :
  exists l,
    fst (queryRelationsOne Blog.posts Blog.relation "tags" Blog.p1'
           (mkQuery (Some FEmpty) None [mkSort "_id" false]) Blog.world1)
    = Ok (PopDocs l) /\
    fst (countRelationsOne Blog.posts Blog.relation "tags" Blog.p1' FEmpty Blog.world1)
    = Ok (length l).
Proof.
  refine (count_is_length_of_query Blog.posts Blog.relation "tags" "Tag" Blog.p1'
            Blog.p1' ["t1"; "t2"] (mkQuery (Some FEmpty) None [mkSort "_id" false])
            FEmpty Blog.world1 eq_refl _ _ eq_refl eq_refl _ eq_refl eq_refl).
  - intros w. reflexivity.
  - vm_compute. reflexivity.
  - apply (bool_decide_unpack _). vm_compute. exact I.
Defined.

(** ** Counting and aggregating over a virtual lookup *)

(** X13. On a virtual lookup whose options name a registered model,
    countRelations sends one count to that model and returns the number of
    its documents whose foreign field holds the local value of the entity
    passed in and that satisfy the caller's filter as converted by the
    assembler; aggregateRelations sends one aggregation and returns the
    empty response when there is no such document, and otherwise the
    conversion of the row the store accumulates over these documents. *)
Theorem virtual_lookup_counts_foreign_matches
    (this : Service) (RelationClass : Class) (relationName target : string)
    (vo : VirtualOptions) (dto : Doc) (f : Filter) (agg : AggregateQuery) (w : World) :
  isReferencePath this relationName = false ->
  isVirtualTypeWithReferenceOptions (virtualpath (schema (Model this)) relationName)
  = Some vo ->
  getModelWithString this (vRef vo) = Some target ->
  let assembler := documentAssembler RelationClass in
  let converted := qFilter (convertQuery assembler (mkQuery (Some f) None [])) in
  let q := buildFilterQuery (Some (getVirtualReferenceFilter vo dto converted)) in
  let related :=
    lookedUp vo dto (default FEmpty converted) (collection (store w) target) in
  countRelationsOne this RelationClass relationName dto f w
  = (Ok (length related), sent w [EvCount target q]) /\
  aggregateRelationsOne this RelationClass relationName dto f agg w
  = (Ok (match related with
         | [] => ∅
         | ds => convertToAggregateResponse this
                   (accumulate this (convertAggregateQuery assembler agg) ds)
         end),
     sent w [EvAggregate target q (convertAggregateQuery assembler agg)]).
Proof.
  intros Hpath Hvo Hmodel assembler converted q related.
  assert (isVirtualPath this relationName = true) as Hvirt.
  { unfold isVirtualPath. apply bool_decide_eq_true.
    unfold isVirtualTypeWithReferenceOptions in Hvo.
    destruct (virtualpath _ _); [by eexists|done]. }
  assert (forall w0, getReferenceModel this relationName w0 = (Ok (Some target), w0))
    as Hlookup.
  { intros w0. unfold getReferenceModel. by rewrite Hpath, Hvirt, Hvo, Hmodel. }
  assert (forall w0, getReferenceFilter this relationName dto converted w0
                     = (Ok (Some (getVirtualReferenceFilter vo dto converted)), w0))
    as Hfilter.
  { intros w0. unfold getReferenceFilter. by rewrite Hpath, Hvirt, Hvo. }
  assert (matching q (collection (store w) target) = related) as Hrelated.
  { unfold matching, related, lookedUp. apply list_filter_iff. intros d.
    unfold q, matches, getVirtualReferenceFilter. cbn.
    rewrite filterHolds_mergeFilter, andb_true_iff. cbn [filterHolds].
    by destruct (get dto (localField vo)). }
  split.
  - unfold countRelationsOne.
    rewrite run_bind, checkForReference_virtual_allowed by done.
    rewrite run_bind, Hlookup, run_bind, Hfilter.
    unfold useModel, count. run. fold q. by rewrite Hrelated.
  - unfold aggregateRelationsOne.
    rewrite run_bind, checkForReference_virtual_allowed by done.
    rewrite run_bind, Hlookup, run_bind, Hfilter.
    unfold useModel, aggregate. cbn [buildAggregateQuery]. run. fold q.
    rewrite Hrelated. by destruct related.
Qed.

Lemma virtual_lookup_counts_foreign_matches_witness :
  countRelationsOne Blog.posts Blog.relation "comments" Blog.p1 FEmpty Blog.world1
  = (Ok 2, sent Blog.world1
             [EvCount "Comment" (mkFQ None (FCmp "post" (CmpEq (VScalar "p1"))))]).
Proof.
  refine (proj1 (virtual_lookup_counts_foreign_matches Blog.posts Blog.relation
                   "comments" "Comment" (mkVirtualOptions "Comment" "_id" "post" false)
                   Blog.p1 FEmpty Blog.countAll Blog.world1 eq_refl eq_refl eq_refl)).
Defined.
